(** * Staff entities of the school portal: teachers, their metrics and workflows

    A shallow embedding of [common.py] (the [employees] models): the
    [Teacher] model with its derived metrics ([finished_demo_lessons],
    [paid_after_demo], [conversion]), its language helpers, the onboarding
    procedure [Teacher.create], the blocking procedure [Teacher.block], and
    [TeacherMaterial.name].

    Conventions of the embedding.
    - A Python [str] is a [string] holding its UTF-8 bytes.  The only string
      tests of the source look for ASCII text, and an ASCII byte never occurs
      inside a multi-byte UTF-8 sequence, so byte-wise search agrees with
      search on code points.
    - A Python [set] of strings is a [gset string]; a database table is a
      list of rows in the default ordering of its model, or a finite map
      when the source only looks rows up by their key.
    - A related object reached through a foreign key ([self.language],
      [lesson.course], [course.base_course]) is held in the row that refers
      to it, as Django keeps it on the instance.
    - A method that reads or writes the database, the cache, the clock or
      the mail queue is a function in the monad [M]: it takes the [World] and
      returns a [result] (a value or a raised exception) and the new world.
      What a step has written stays written when a later step raises.
    - A Python [float] is an IEEE 754 binary64 number, kept as its integer
      significand and its exponent. *)

From Stdlib Require Import ZArith Lia Ascii String List.
From stdpp Require Import base option gmap strings list pretty.

Open Scope Z_scope.

(** ** Exceptions and results *)

Inductive exn : Type :=
  | ZeroDivisionError
  | OverflowError
  | IntegrityError
  | ValueError
  | KeyError
  | FileNotFoundError.

Inductive result (A : Type) : Type :=
  | Ok (a : A)
  | Raise (e : exn).
Arguments Ok {A} a.
Arguments Raise {A} e.

Definition is_ok {A} (r : result A) : bool :=
  match r with Ok _ => true | Raise _ => false end.

(** ** Binary64 floats

    Only non-negative finite floats occur: the quotient of two counts and
    its rounding.  [mk m e] is the number [m * 2^e]; a normal number has
    [2^52 <= m < 2^53], a subnormal one has [e = -1074] and [m < 2^52], and
    zero is [mk 0 0]. *)

Module Float.

Record float : Type := mk { mant : Z; expo : Z }.

Definition zero : float := mk 0 0.
Definition one : float := mk (2 ^ 52) (-52).

Definition emin : Z := -1074.
Definition emax : Z := 971.

(** Round the quotient [q + r / den] (with [0 <= r < den]) to an integer,
    ties to the even neighbour. *)
Definition half_even (q r den : Z) : Z :=
  if (den <? 2 * r) || ((2 * r =? den) && Z.odd q) then q + 1 else q.

(** The number of an integer division, scaled by [2^-e]. *)
Definition scaled_num (n e : Z) : Z := if 0 <=? e then n else n * 2 ^ (- e).
Definition scaled_den (d e : Z) : Z := if 0 <=? e then d * 2 ^ e else d.

(** The float nearest to [n / d] for [0 <= n] and [0 < d], ties to even;
    [None] when the quotient is too large for a float.  This is what both
    [int.__truediv__] and the decimal-to-float conversion at the end of
    [float.__round__] compute: each is correctly rounded. *)
Definition nearest (n d : Z) : option float :=
  if n =? 0 then Some zero
  else
    let k := Z.log2 n - Z.log2 d in
    let e1 := k - 52 in
    let e2 := if 2 ^ 52 <=? scaled_num n e1 / scaled_den d e1 then e1 else e1 - 1 in
    let e := Z.max emin e2 in
    let num := scaled_num n e in
    let den := scaled_den d e in
    let m := half_even (num / den) (num mod den) den in
    let m' := if m =? 2 ^ 53 then 2 ^ 52 else m in
    let e' := if m =? 2 ^ 53 then e + 1 else e in
    if m' =? 0 then Some zero
    else if emax <? e' then None
    else Some (mk m' e').

(** [a / b] on Python integers (here: counts, never negative). *)
Definition truediv (a b : Z) : result float :=
  if b =? 0 then Raise ZeroDivisionError
  else match nearest a b with
       | Some x => Ok x
       | None => Raise OverflowError
       end.

(** The integer nearest to [x * 10^2], ties to even, on the exact value of
    the float: the digits [float.__round__] asks of the float-to-decimal
    conversion. *)
Definition hundredths (x : float) : Z :=
  let n := 100 * mant x in
  if 0 <=? expo x then n * 2 ^ expo x
  else half_even (n / 2 ^ (- expo x)) (n mod 2 ^ (- expo x)) (2 ^ (- expo x)).

(** [round(x, 2)]. *)
Definition round2 (x : float) : result float :=
  match nearest (hundredths x) 100 with
  | Some y => Ok y
  | None => Raise OverflowError
  end.

(** The float a decimal literal with two decimals denotes, e.g. [0.3] is
    [literal2 30]. *)
Definition literal2 (h : Z) : option float := nearest h 100.

End Float.

Export Float(float).

(** ** Dates *)

Record date : Type := mk_date { year : Z; month : Z; day : Z }.

Definition is_leap (y : Z) : bool :=
  (y mod 4 =? 0) && (negb (y mod 100 =? 0) || (y mod 400 =? 0)).

(** [calendar.monthrange(y, m)[1]] *)
Definition days_in_month (y m : Z) : Z :=
  if m =? 2 then (if is_leap y then 29 else 28)
  else if (m =? 4) || (m =? 6) || (m =? 9) || (m =? 11) then 30
  else 31.

(** [d + relativedelta(months=1)]: the same day of the next month, or the
    last day of that month when it is shorter; [date.replace] refuses a year
    after 9999. *)
Definition add_one_month (d : date) : result date :=
  let m := month d + 1 in
  let y' := if 12 <? m then year d + 1 else year d in
  let m' := if 12 <? m then m - 12 else m in
  let d' := Z.min (days_in_month y' m') (day d) in
  if 9999 <? y' then Raise ValueError else Ok (mk_date y' m' d').

(** ** Rows of the models *)

(** [language.models.Language]: the fields this module reads. *)
Record language : Type := mk_language {
  lang_pk : Z;
  lang_code : string;
  lang_machine_name : string;
  lang_en_name : string;
  lang_cz_gent : string
}.

Record base_course : Type := mk_base_course {
  bc_code : string;
  bc_language : language
}.

(** [courses.models.with_teacher.StudentCourse] *)
Record student_course : Type := mk_student_course {
  sc_student : Z;
  sc_base_course : base_course;
  sc_created : Z
}.

(** [courses.models.SingleTeacherLesson] *)
Record lesson : Type := mk_lesson {
  stl_teacher : Z;
  stl_course : student_course;
  stl_finished : bool;
  stl_start : Z
}.

(** A free-time record or a free-time template of a teacher. *)
Record free_time : Type := mk_free_time {
  ft_pk : Z;
  ft_teacher : Z;
  ft_available : bool
}.

(** The user account ([settings.AUTH_USER_MODEL]). *)
Record user : Type := mk_user {
  user_pk : Z;
  user_first_name : string;
  user_is_active : bool;
  user_password : string
}.

(** [Teacher], with the fields of [Employee] it inherits and uses. *)
Record teacher : Type := mk_teacher {
  t_pk : Z;
  t_user : user;
  t_position : option string;
  t_language : language;
  t_russian : bool;
  t_native : bool;
  t_language_support : bool
}.

(** [user_tests.models.UserTest] *)
Record user_test : Type := mk_user_test {
  ut_user : Z;
  ut_asset : string;
  ut_due_date : date
}.

Record mail : Type := mk_mail {
  mail_to : Z;
  mail_subject : string;
  mail_html : string
}.

Record teacher_material : Type := mk_teacher_material {
  tm_language : language;
  tm_attachment : string;
  tm_russian : bool;
  tm_native : bool
}.

(** One entry of [Teacher.get_basic_materials]. *)
Record material : Type := mk_material {
  m_code : string;
  m_name : string;
  m_url : string
}.

(** The context of the greeting email's template. *)
Record email_context : Type := mk_email_context {
  ctx_name : string;
  ctx_password : string;
  ctx_teacher : teacher;
  ctx_native : bool
}.

(** The keyword arguments of [Teacher.create]: the two it pops, absent as
    [None], and the fields it hands to [Teacher.objects.create]. *)
Record create_kwargs : Type := mk_create_kwargs {
  kw_send_greeting_email : option bool;
  kw_additional_languages : option (list Z);
  kw_language : language;
  kw_russian : bool;
  kw_native : bool;
  kw_language_support : bool
}.

(** ** The world a request runs in *)

Record World : Type := mk_world {
  clock : Z;   (* seconds *)
  today : date;   (* [now().date()] *)
  cache : gmap string (Z * Z);   (* key -> value, expiry *)
  users : gmap Z user;   (* by pk *)
  groups : gset string;   (* [Group], by its unique name *)
  user_groups : gset (Z * string);   (* [user.groups]: user pk, group *)
  languages : list language;
  teachers : list teacher;
  additional_languages : gset (Z * Z);   (* teacher pk, language pk *)
  salary_profiles : list Z;   (* the user of each [SalaryProfile] *)
  user_tests : list user_test;
  lessons : list lesson;
  courses : list student_course;
  free_times : list free_time;
  free_time_templates : list free_time;
  outbox : list mail;   (* mails handed to delivery *)
  sent_signals : list Z   (* [teacher_blocked], by teacher pk *)
}.

Definition set_cache (f : gmap string (Z * Z) → gmap string (Z * Z)) (w : World) : World :=
  mk_world (clock w) (today w) (f (cache w)) (users w) (groups w) (user_groups w)
    (languages w) (teachers w) (additional_languages w) (salary_profiles w)
    (user_tests w) (lessons w) (courses w) (free_times w) (free_time_templates w)
    (outbox w) (sent_signals w).

Definition set_users (f : gmap Z user → gmap Z user) (w : World) : World :=
  mk_world (clock w) (today w) (cache w) (f (users w)) (groups w) (user_groups w)
    (languages w) (teachers w) (additional_languages w) (salary_profiles w)
    (user_tests w) (lessons w) (courses w) (free_times w) (free_time_templates w)
    (outbox w) (sent_signals w).

Definition set_groups (f : gset string → gset string) (w : World) : World :=
  mk_world (clock w) (today w) (cache w) (users w) (f (groups w)) (user_groups w)
    (languages w) (teachers w) (additional_languages w) (salary_profiles w)
    (user_tests w) (lessons w) (courses w) (free_times w) (free_time_templates w)
    (outbox w) (sent_signals w).

Definition set_user_groups (f : gset (Z * string) → gset (Z * string)) (w : World) : World :=
  mk_world (clock w) (today w) (cache w) (users w) (groups w) (f (user_groups w))
    (languages w) (teachers w) (additional_languages w) (salary_profiles w)
    (user_tests w) (lessons w) (courses w) (free_times w) (free_time_templates w)
    (outbox w) (sent_signals w).

Definition set_teachers (f : list teacher → list teacher) (w : World) : World :=
  mk_world (clock w) (today w) (cache w) (users w) (groups w) (user_groups w)
    (languages w) (f (teachers w)) (additional_languages w) (salary_profiles w)
    (user_tests w) (lessons w) (courses w) (free_times w) (free_time_templates w)
    (outbox w) (sent_signals w).

Definition set_additional_languages (f : gset (Z * Z) → gset (Z * Z)) (w : World) : World :=
  mk_world (clock w) (today w) (cache w) (users w) (groups w) (user_groups w)
    (languages w) (teachers w) (f (additional_languages w)) (salary_profiles w)
    (user_tests w) (lessons w) (courses w) (free_times w) (free_time_templates w)
    (outbox w) (sent_signals w).

Definition set_salary_profiles (f : list Z → list Z) (w : World) : World :=
  mk_world (clock w) (today w) (cache w) (users w) (groups w) (user_groups w)
    (languages w) (teachers w) (additional_languages w) (f (salary_profiles w))
    (user_tests w) (lessons w) (courses w) (free_times w) (free_time_templates w)
    (outbox w) (sent_signals w).

Definition set_user_tests (f : list user_test → list user_test) (w : World) : World :=
  mk_world (clock w) (today w) (cache w) (users w) (groups w) (user_groups w)
    (languages w) (teachers w) (additional_languages w) (salary_profiles w)
    (f (user_tests w)) (lessons w) (courses w) (free_times w) (free_time_templates w)
    (outbox w) (sent_signals w).

Definition set_free_times (f : list free_time → list free_time) (w : World) : World :=
  mk_world (clock w) (today w) (cache w) (users w) (groups w) (user_groups w)
    (languages w) (teachers w) (additional_languages w) (salary_profiles w)
    (user_tests w) (lessons w) (courses w) (f (free_times w)) (free_time_templates w)
    (outbox w) (sent_signals w).

Definition set_free_time_templates (f : list free_time → list free_time) (w : World) : World :=
  mk_world (clock w) (today w) (cache w) (users w) (groups w) (user_groups w)
    (languages w) (teachers w) (additional_languages w) (salary_profiles w)
    (user_tests w) (lessons w) (courses w) (free_times w) (f (free_time_templates w))
    (outbox w) (sent_signals w).

Definition set_outbox (f : list mail → list mail) (w : World) : World :=
  mk_world (clock w) (today w) (cache w) (users w) (groups w) (user_groups w)
    (languages w) (teachers w) (additional_languages w) (salary_profiles w)
    (user_tests w) (lessons w) (courses w) (free_times w) (free_time_templates w)
    (f (outbox w)) (sent_signals w).

Definition set_sent_signals (f : list Z → list Z) (w : World) : World :=
  mk_world (clock w) (today w) (cache w) (users w) (groups w) (user_groups w)
    (languages w) (teachers w) (additional_languages w) (salary_profiles w)
    (user_tests w) (lessons w) (courses w) (free_times w) (free_time_templates w)
    (outbox w) (f (sent_signals w)).

(** ** The monad of requests *)

Definition M (A : Type) : Type := World → result A * World.

#[global] Instance M_ret : MRet M := λ A a w, (Ok a, w).
#[global] Instance M_bind : MBind M := λ A B k m w,
  match m w with
  | (Ok a, w') => k a w'
  | (Raise e, w') => (Raise e, w')
  end.

Definition raise {A} (e : exn) : M A := λ w, (Raise e, w).
Definition gets {A} (f : World → A) : M A := λ w, (Ok (f w), w).
Definition modify (f : World → World) : M unit := λ w, (Ok tt, f w).
Definition lift {A} (r : result A) : M A := λ w, (r, w).

(** [for x in xs: body(x)] *)
Fixpoint for_each {A} (body : A → M unit) (xs : list A) : M unit :=
  match xs with
  | [] => mret tt
  | x :: xs' => body x;; for_each body xs'
  end.

(** What a run returns and the world it leaves. *)
Definition value {A} (p : result A * World) : result A := fst p.
Definition world_after {A} (p : result A * World) : World := snd p.

(** ** Strings and paths *)

(** [sub in s] *)
Fixpoint contains (sub s : string) : bool :=
  String.prefix sub s
  || match s with
     | EmptyString => false
     | String _ s' => contains sub s'
     end.

(** [sep.join(parts)] *)
Fixpoint join (sep : string) (parts : list string) : string :=
  match parts with
  | [] => ""
  | [x] => x
  | x :: rest => x +:+ sep +:+ join sep rest
  end.

Fixpoint ends_with_slash (s : string) : bool :=
  match s with
  | EmptyString => false
  | String c EmptyString => bool_decide (c = "/"%char)
  | String _ s' => ends_with_slash s'
  end.

(** One step of [os.path.join] on POSIX. *)
Definition path_join2 (path b : string) : string :=
  if String.prefix "/" b then b
  else if bool_decide (path = "") || ends_with_slash path then path +:+ b
  else path +:+ "/" +:+ b.

Definition os_path_join (a : string) (p : list string) : string :=
  fold_left path_join2 p a.

(** [os.path.basename] on POSIX: what follows the last slash. *)
Fixpoint basename_from (acc p : string) : string :=
  match p with
  | EmptyString => acc
  | String c p' =>
      if bool_decide (c = "/"%char) then basename_from "" p'
      else basename_from (acc +:+ String c EmptyString) p'
  end.

Definition os_path_basename (p : string) : string := basename_from "" p.

(** ** The cache of derived metrics *)

(** Modelled from the spec: [portal.utils.dates.days2sec] is not in this
    file; the metrics are kept for 24 hours, so one day is 86400 seconds. *)
Definition days2sec (days : Z) : Z := days * 86400.

(** Modelled from the spec: the decorator [employees.cache.cached] is not in
    this file.  The cache key is per teacher, an entry expires a fixed time
    after it was written, and nothing invalidates it when the data change:
    a live entry is returned as it is; otherwise the decorated function
    runs and its value is stored under the key. *)
Definition cached (key : string) (timeout : Z) (compute : M Z) : M Z :=
  λ w,
    let miss :=
      (v ← compute;
       modify (set_cache (λ c, <[key := (v, clock w + timeout)]> c));;
       mret v) w in
    match cache w !! key with
    | Some (v, expiry) => if clock w <? expiry then (Ok v, w) else miss
    | None => miss
    end.

(** No live entry under [key]: the next read computes. *)
Definition cache_miss (key : string) (w : World) : Prop :=
  match cache w !! key with
  | Some (_, expiry) => expiry <= clock w
  | None => True
  end.

(** ** Teacher: derived metrics *)

Module Teacher.

Definition DEMOS_MIN : Z := 10.

Definition is_demo (bc : base_course) : bool :=
  bool_decide (bc_code bc = "DEMO") || bool_decide (bc_code bc = "NATIVE-DEMO").

(** [self.singleteacherlesson_set.filter(Q(course__base_course__code='DEMO')
    | Q(course__base_course__code='NATIVE-DEMO'), finished=True)] *)
Definition _finished_demo_lessons (self : teacher) (w : World) : list lesson :=
  List.filter
    (λ l, (stl_teacher l =? t_pk self)
          && is_demo (sc_base_course (stl_course l))
          && stl_finished l)
    (lessons w).

Definition finished_demo_lessons_key (self : teacher) : string :=
  "FINISHED_DEMO__" +:+ pretty (t_pk self).

Definition finished_demo_lessons (self : teacher) : M Z :=
  cached (finished_demo_lessons_key self) (days2sec 1)
    (gets (λ w, Z.of_nat (length (_finished_demo_lessons self w)))).

(** [StudentCourse.objects.filter(student=student)
      .exclude(created__lt=lesson.start)
      .exclude(base_course__code='DEMO')
      .exclude(base_course__code='NATIVE-DEMO').exists()]
    for the student of [lesson]. *)
Definition paid_course_exists (w : World) (l : lesson) : bool :=
  existsb
    (λ c, (sc_student c =? sc_student (stl_course l))
          && negb (sc_created c <? stl_start l)
          && negb (bool_decide (bc_code (sc_base_course c) = "DEMO"))
          && negb (bool_decide (bc_code (sc_base_course c) = "NATIVE-DEMO")))
    (courses w).

(** The body of [paid_after_demo]: the loop over the finished demo lessons. *)
Definition paid_after_demo_body (self : teacher) (w : World) : Z :=
  fold_left
    (λ students_pay l, if paid_course_exists w l then students_pay + 1 else students_pay)
    (_finished_demo_lessons self w) 0.

Definition paid_after_demo_key (self : teacher) : string :=
  "PAID_AFTER_DEMO__" +:+ pretty (t_pk self).

Definition paid_after_demo (self : teacher) : M Z :=
  cached (paid_after_demo_key self) (days2sec 1) (gets (paid_after_demo_body self)).

Definition conversion (self : teacher) : M float :=
  students_demo ← finished_demo_lessons self;
  if students_demo <? DEMOS_MIN then mret Float.one
  else
    paid ← paid_after_demo self;
    q ← lift (Float.truediv paid students_demo);
    lift (Float.round2 q).

(** The specification's reading of [paid_after_demo]: the students, each
    once, who have a finished demo lesson with the teacher and a course that
    counts as paid after it. *)
Definition paying_students (self : teacher) (w : World) : gset Z :=
  list_to_set
    (map (λ l, sc_student (stl_course l))
       (List.filter (paid_course_exists w) (_finished_demo_lessons self w))).

(** *** Languages *)

(** [self.additional_languages.all()] *)
Definition additional_languages_all (self : teacher) (w : World) : list language :=
  List.filter
    (λ l, bool_decide ((t_pk self, lang_pk l) ∈ additional_languages w))
    (languages w).

Definition all_languages_codes (self : teacher) (w : World) : gset string :=
  {[ lang_code (t_language self) ]}
  ∪ list_to_set (map lang_code (additional_languages_all self w)).

(** [Language.objects.filter(code__in=codes)] *)
Definition languages_with_code_in (codes : gset string) (w : World) : list language :=
  List.filter (λ l, bool_decide (lang_code l ∈ codes)) (languages w).

Definition languages_contract (self : teacher) (w : World) : string :=
  join ", " (map lang_en_name (languages_with_code_in (all_languages_codes self w) w)).

Definition languages_contract_cz (self : teacher) (w : World) : string :=
  join ", " (map lang_cz_gent (languages_with_code_in (all_languages_codes self w) w)).

Definition interface_language (self : teacher) : string :=
  if t_russian self then "ru" else "en".

Definition is_active (self : teacher) : bool := user_is_active (t_user self).

Definition name (self : teacher) : string := user_first_name (t_user self).

(** What lies outside this file: the inflection engine, the order in which
    a Python set hands out its elements, the file system, regular
    expressions, URL reversing, signing and template rendering. *)
Section External.

Variable in_case : language → string → string.
Variable set_order : gset string → list string.
Variable str_upper : string → string.
Variable BASE_DIR : string.
Variable os_path_exists : string → bool.
Variable os_listdir : string → result (list string).
Variable re_match : string → string → bool.
Variable get_full_url : string → list string → string.
Variable signing_dumps : Z → string → string → string.
Variable render_to_string : string → email_context → string.

Definition generate_position (self : teacher) (w : World) : string :=
  let languages :=
    join ", "
      (map (λ l, in_case l "gent")
         (languages_with_code_in (all_languages_codes self w) w)) in
  "Преподаватель " +:+ languages +:+ " язык"
  +:+ (if contains ", " languages then "ов" else "а")
  +:+ (if t_native self then ", носитель" else "").

(** The loop of [get_basic_materials] over the directory codes. *)
Fixpoint basic_materials_loop (self : teacher) (codes : list string)
    (acc : list material) : result (list material) :=
  match codes with
  | [] => Ok acc
  | code :: codes' =>
      let path := os_path_join BASE_DIR ["materials/courses/templates/ru"; code] in
      if negb (os_path_exists path) then basic_materials_loop self codes' acc
      else
        match os_listdir path with
        | Raise e => Raise e
        | Ok files =>
            basic_materials_loop self codes'
              (acc ++
               map (λ f,
                      mk_material code f
                        (get_full_url "teacher_material_template" ["ru"; code; f]
                         +:+ "?sign="
                         +:+ signing_dumps (user_pk (t_user self)) f code))
                 (List.filter (re_match "module\d+(_theory|)\.pdf") files))
        end
  end.

Definition get_basic_materials (self : teacher) (w : World) : result (list material) :=
  if negb (t_russian self) then Ok []
  else
    let codes :=
      flat_map (λ c, [str_upper c +:+ "-BASIC-S"; str_upper c +:+ "-BASIC-N"])
        (set_order (all_languages_codes self w)) in
    basic_materials_loop self codes [].

(** [set.pop()]: the first element the set hands out, [KeyError] on the
    empty set. *)
Definition set_pop (s : gset string) : result string :=
  match set_order s with
  | x :: _ => Ok x
  | [] => Raise KeyError
  end.

(** The machine names of the languages of the student's lessons with this
    teacher. *)
Definition lesson_languages (self : teacher) (student : Z) (w : World) : gset string :=
  list_to_set
    (map (λ l, lang_machine_name (bc_language (sc_base_course (stl_course l))))
       (List.filter
          (λ l, (sc_student (stl_course l) =? student) && (stl_teacher l =? t_pk self))
          (lessons w))).

Definition teacher_languages (self : teacher) (w : World) : gset string :=
  list_to_set
    (map lang_machine_name (additional_languages_all self w)
     ++ [lang_machine_name (t_language self)]).

Definition language_for_student (self : teacher) (student : Z) (w : World)
    : result string :=
  let intersection := lesson_languages self student w ∩ teacher_languages self w in
  match set_pop intersection with
  | Ok x => Ok x
  | Raise KeyError => Ok (lang_machine_name (t_language self))
  | Raise e => Raise e
  end.

(** *** Onboarding *)

(** Modelled from the spec: [UserTest.objects.create_test] is not in this
    file; it assigns a test with a due date to a user. *)
Definition create_test (u : user) (asset : string) (due_date : date) : M unit :=
  modify (set_user_tests (λ l, l ++ [mk_user_test (user_pk u) asset due_date])).

Definition _assign_tests (self : teacher) : M unit :=
  today_ ← gets today;
  due ← lift (add_one_month today_);
  create_test (t_user self) "webinar1" due;;
  create_test (t_user self) "webinar2" due.

Definition next_pk (rows : list teacher) : Z :=
  1 + fold_right Z.max 0 (map t_pk rows).

(** [Teacher.objects.create(user=user, **kwargs)]: the link to the user is
    one-to-one, so a second teacher of the same user is refused. *)
Definition objects_create (u : user) (kw : create_kwargs) : M teacher :=
  λ w,
    if existsb (λ r, user_pk (t_user r) =? user_pk u) (teachers w)
    then (Raise IntegrityError, w)
    else
      let t := mk_teacher (next_pk (teachers w)) u None (kw_language kw)
                 (kw_russian kw) (kw_native kw) (kw_language_support kw) in
      (Ok t, set_teachers (λ rows, rows ++ [t]) w).

(** [teacher.save()] *)
Definition save (self : teacher) : M unit :=
  modify (set_teachers (λ rows,
    if existsb (λ r, t_pk r =? t_pk self) rows
    then map (λ r, if t_pk r =? t_pk self then self else r) rows
    else rows ++ [self])).

Definition set_position (self : teacher) (p : option string) : teacher :=
  mk_teacher (t_pk self) (t_user self) p (t_language self) (t_russian self)
    (t_native self) (t_language_support self).

(** [teacher.additional_languages.add(lang_pk)] *)
Definition additional_languages_add (self : teacher) (lang_pk_ : Z) : M unit :=
  modify (set_additional_languages (λ s, s ∪ {[ (t_pk self, lang_pk_) ]})).

(** [SalaryProfile.objects.create(user=user)]; a user has at most one
    salary profile ([user.salaryprofile]). *)
Definition salary_profile_create (u : user) : M unit :=
  λ w,
    if existsb (λ p, p =? user_pk u) (salary_profiles w)
    then (Raise IntegrityError, w)
    else (Ok tt, set_salary_profiles (λ l, l ++ [user_pk u]) w).

(** [Group.objects.get_or_create(name=name)[0]] *)
Definition group_get_or_create (name_ : string) : M string :=
  modify (set_groups (λ g, g ∪ {[ name_ ]}));; mret name_.

(** [user.groups.add(group)] *)
Definition user_groups_add (u : user) (group : string) : M unit :=
  modify (set_user_groups (λ s, s ∪ {[ (user_pk u, group) ]})).

(** Modelled from the spec: [MailMixin.send_html_mail] is not in this file;
    it hands a mail for the user of the employee to delivery. *)
Definition send_html_mail (self : teacher) (subject html : string) : M unit :=
  modify (set_outbox (λ l, l ++ [mk_mail (user_pk (t_user self)) subject html])).

Definition create (u : user) (password : string) (kwargs : create_kwargs) : M teacher :=
  let send_greeting_email := default true (kw_send_greeting_email kwargs) in
  let additional_languages_ := default [] (kw_additional_languages kwargs) in
  created ← objects_create u kwargs;
  position ← gets (generate_position created);
  let teacher_ := set_position created (Some position) in
  save teacher_;;
  for_each (additional_languages_add teacher_) additional_languages_;;
  salary_profile_create u;;
  group ← group_get_or_create "Helpdesk support";
  user_groups_add (t_user teacher_) group;;
  (if t_russian teacher_ then _assign_tests teacher_ else mret tt);;
  (if send_greeting_email
   then send_html_mail teacher_ "Access to teacher's dashboard"
          (render_to_string "manager/create_teacher_email.html"
             (mk_email_context (name teacher_) password teacher_ (t_native teacher_)))
   else mret tt);;
  mret teacher_.

End External.

(** *** Blocking *)

(** [user.set_unusable_password()]: the password becomes ["!"] followed by
    a random suffix, here [salt]. *)
Definition set_unusable_password (salt : string) (u : user) : user :=
  mk_user (user_pk u) (user_first_name u) (user_is_active u) ("!" +:+ salt).

Definition has_usable_password (u : user) : bool :=
  negb (String.prefix "!" (user_password u)).

Definition set_is_active (b : bool) (u : user) : user :=
  mk_user (user_pk u) (user_first_name u) b (user_password u).

Definition set_user (self : teacher) (u : user) : teacher :=
  mk_teacher (t_pk self) u (t_position self) (t_language self) (t_russian self)
    (t_native self) (t_language_support self).

(** [queryset.update(available=False)] on the rows of this teacher *)
Definition make_unavailable (self : teacher) (rows : list free_time) : list free_time :=
  map (λ r, if ft_teacher r =? t_pk self
            then mk_free_time (ft_pk r) (ft_teacher r) false
            else r) rows.

(** [block] changes [self.user] in place; the teacher it returns is the
    receiver as the call leaves it.  [salt] is the random suffix the call
    draws for the unusable password. *)
Definition block (salt : string) (self : teacher) : M teacher :=
  modify (set_free_time_templates (make_unavailable self));;
  modify (set_free_times (make_unavailable self));;
  let user_ := set_unusable_password salt (set_is_active false (t_user self)) in
  modify (set_users (λ m, <[user_pk user_ := user_]> m));;
  modify (set_sent_signals (λ l, l ++ [t_pk self]));;
  mret (set_user self user_).

End Teacher.

(** ** TeacherMaterial *)

Module TeacherMaterial.

Section Storage.

(** Modelled from the spec: the storage [portal.utils.materials_fs] is not
    in this file; a file is in the storage backend or it is not, and a
    stored file has a path. *)
Variable materials_fs_exists : string → bool.
Variable materials_fs_path : string → string.

(** Opening a stored name gives the file, known by its path; a name that is
    not stored raises [FileNotFoundError]. *)
Definition materials_fs_open (name_ : string) : result string :=
  if materials_fs_exists name_ then Ok (materials_fs_path name_)
  else Raise FileNotFoundError.

(** [self.attachment.file.name]: a field with no file attached (an empty
    name) raises [ValueError] before the storage is asked. *)
Definition attachment_file_name (self : teacher_material) : result string :=
  if bool_decide (tm_attachment self = "") then Raise ValueError
  else materials_fs_open (tm_attachment self).

Definition name (self : teacher_material) : result string :=
  match attachment_file_name self with
  | Ok file_name => Ok (os_path_basename file_name)
  | Raise FileNotFoundError => Ok "-- file not found --"
  | Raise e => Raise e
  end.

End Storage.

End TeacherMaterial.

(** ** Well-formed worlds *)

(** Every count the cache holds, and the number of lesson rows, fits a
    64-bit signed integer, as a count coming out of the database does. *)
Definition bounded_counts (w : World) : Prop :=
  (∀ key v expiry, cache w !! key = Some (v, expiry) → 0 <= v < 2 ^ 63)
  ∧ Z.of_nat (length (lessons w)) < 2 ^ 63.

(** A user the onboarding can take: no teacher and no salary profile yet. *)
Definition fresh_user (u : user) (w : World) : Prop :=
  (∀ r, In r (teachers w) → user_pk (t_user r) ≠ user_pk u)
  ∧ ¬ In (user_pk u) (salary_profiles w).

(** An order in which a set hands out its elements lists exactly them. *)
Definition lists_elements (set_order : gset string → list string) : Prop :=
  ∀ s x, In x (set_order s) ↔ x ∈ s.

(** ** Sample data *)

Module Examples.

Definition english : language := mk_language 1 "en" "english" "English" "angličtiny".
Definition french : language := mk_language 2 "fr" "french" "French" "francouzštiny".

(** A stand-in for the inflection engine on the two sample languages. *)
Definition in_case (l : language) (case : string) : string :=
  if bool_decide (case = "gent")
  then (if bool_decide (lang_code l = "en") then "английского" else "французского")
  else lang_en_name l.

Definition set_order (s : gset string) : list string := elements s.

Definition render_to_string (template : string) (ctx : email_context) : string :=
  template +:+ ":" +:+ ctx_name ctx +:+ ":" +:+ ctx_password ctx.

Definition anna : user := mk_user 5 "Anna" true "pbkdf2_sha256$x".

Definition anna_teacher : teacher := mk_teacher 1 anna None english true false false.

Definition empty_world : World :=
  mk_world 0 (mk_date 2024 1 31) ∅ ∅ ∅ ∅ [english; french] [] ∅ [] [] [] [] [] [] [] [].

Definition demo_course (student : Z) : student_course :=
  mk_student_course student (mk_base_course "DEMO" english) 50.

Definition paid_course (student : Z) : student_course :=
  mk_student_course student (mk_base_course "EN-A1" english) 200.

Definition demo_lesson (student : Z) : lesson :=
  mk_lesson 1 (demo_course student) true 100.

Definition with_lessons (ls : list lesson) (cs : list student_course) : World :=
  mk_world 0 (mk_date 2024 1 31) ∅ ∅ ∅ ∅ [english; french] [anna_teacher] ∅ [] []
    ls cs [] [] [] [].

(** Ten finished demo lessons, of ten students; three of them bought a
    course afterwards. *)
Definition ten_demos : World :=
  with_lessons (map demo_lesson [101; 102; 103; 104; 105; 106; 107; 108; 109; 110])
    (map demo_course [101; 102; 103; 104; 105; 106; 107; 108; 109; 110]
     ++ map paid_course [101; 102; 103]).

(** One student with two finished demo lessons and one course bought after
    both. *)
Definition two_demos_one_student : World :=
  with_lessons [mk_lesson 1 (demo_course 7) true 100; mk_lesson 1 (demo_course 7) true 150]
    [demo_course 7; paid_course 7].

Definition onboarding : create_kwargs :=
  mk_create_kwargs None None english true true false.

Definition onboarding_two_languages : create_kwargs :=
  mk_create_kwargs (Some false) (Some [2]) english false false false.

Definition blocked_world : World :=
  mk_world 0 (mk_date 2024 1 31) ∅ {[ 5 := anna ]} ∅ ∅ [english; french] [anna_teacher]
    ∅ [] [] [] [] [mk_free_time 1 1 true; mk_free_time 2 9 true] [mk_free_time 1 1 true]
    [] [].

Definition not_russian : teacher := mk_teacher 2 anna None english false false false.

Definition stored (name_ : string) : bool := bool_decide (name_ = "teachers/unit1.pdf").
Definition stored_path (name_ : string) : string := "/srv/materials/" +:+ name_.

Definition unit1 : teacher_material := mk_teacher_material english "teachers/unit1.pdf" true false.
Definition lost : teacher_material := mk_teacher_material english "teachers/lost.pdf" true false.
Definition no_file : teacher_material := mk_teacher_material english "" true false.

End Examples.

(** ** Managers and the remaining queries *)

Module ActiveManager.

(** [super().get_queryset().filter(user__is_active=True)] on teachers.  The
    filter joins the user table: a teacher counts as active when the stored
    account of its user is. *)
Definition get_queryset (w : World) : list teacher :=
  List.filter
    (λ t, match users w !! user_pk (t_user t) with
          | Some u => user_is_active u
          | None => false
          end)
    (teachers w).

End ActiveManager.

Module TeacherManager.

(** [self.get_queryset().filter(Q(language__code=language_code)
      | Q(additional_languages__code=language_code))].
    The disjunction over the many-to-many relation makes the query an outer
    join: it yields one row for each attached language of a teacher (one row
    for a teacher without any), and keeps the rows on which the primary or
    the attached language has the code.  A teacher can so come out more than
    once. *)
Definition for_language (language_code : string) (w : World) : list teacher :=
  flat_map
    (λ t,
       let own := bool_decide (lang_code (t_language t) = language_code) in
       match Teacher.additional_languages_all t w with
       | [] => if own then [t] else []
       | attached =>
           flat_map
             (λ l, if own || bool_decide (lang_code l = language_code)
                   then [t] else [])
             attached
       end)
    (ActiveManager.get_queryset w).

End TeacherManager.

Module TeacherQueries.

(** [SingleTeacherLesson.objects.filter(teacher_id=self.pk,
    finished=False).exists()] *)
Definition has_unfinished_lessons (self : teacher) (w : World) : bool :=
  existsb (λ l, (stl_teacher l =? t_pk self) && negb (stl_finished l)) (lessons w).

End TeacherQueries.

(** ** Word forms *)

(** One reading of a word by the morphological analyser: the word form and
    the grammemes of its tag. *)
Record parse : Type := mk_parse {
  parse_word : string;
  parse_tag : gset string
}.

Module Morph.

(** The loop of [_get_right_form]: the first reading in the nominative. *)
Fixpoint first_nomn (word : list parse) : option parse :=
  match word with
  | [] => None
  | p :: rest =>
      if bool_decide ("nomn" ∈ parse_tag p) then Some p else first_nomn rest
  end.

(** [Teacher._get_right_form]; [None] is the [IndexError] of [word[0]] on a
    word without readings. *)
Definition _get_right_form (word : list parse) : option parse :=
  match first_nomn word with
  | Some p => Some p
  | None => head word
  end.

End Morph.

(** ** Comparing floats *)

Module FloatOrder.

(** [x <= y] on the exact values: both significands brought to the smaller
    exponent. *)
Definition leb (x y : float) : bool :=
  let e := Z.min (Float.expo x) (Float.expo y) in
  Float.mant x * 2 ^ (Float.expo x - e) <=? Float.mant y * 2 ^ (Float.expo y - e).

End FloatOrder.

(** ** Further well-formedness *)

(** The language table holds each code once, and holds the primary language
    of the teacher. *)
Definition unique_codes (w : World) : Prop := NoDup (map lang_code (languages w)).

(** No language is attached to the teacher. *)
Definition no_additional_languages (self : teacher) (w : World) : Prop :=
  ∀ l, In l (languages w) → (t_pk self, lang_pk l) ∉ additional_languages w.

(** Both metrics of the teacher are out of the cache. *)
Definition metrics_not_cached (self : teacher) (w : World) : Prop :=
  cache_miss (Teacher.finished_demo_lessons_key self) w
  ∧ cache_miss (Teacher.paid_after_demo_key self) w.

(** A calendar date, within the years a Python [date] can hold. *)
Definition valid_date (d : date) : Prop :=
  1 <= year d <= 9999
  ∧ 1 <= month d <= 12
  ∧ 1 <= day d <= days_in_month (year d) (month d).

(** A storage that keeps its files under a root directory. *)
Definition rooted_storage (materials_fs_path : string → string) (root : string) : Prop :=
  ∀ name_, materials_fs_path name_ = root +:+ "/" +:+ name_.

(** ** A purchase *)

(** The world after a student course has been stored. *)
Definition add_course (c : student_course) (w : World) : World :=
  mk_world (clock w) (today w) (cache w) (users w) (groups w) (user_groups w)
    (languages w) (teachers w) (additional_languages w) (salary_profiles w)
    (user_tests w) (lessons w) (courses w ++ [c]) (free_times w)
    (free_time_templates w) (outbox w) (sent_signals w).

(** ** The teacher an onboarding builds *)

(** The teacher [create] builds for a user without one: the fields given,
    the next primary key, and the position generated right after the row is
    inserted. *)
Definition onboarded (in_case : language → string → string) (u : user)
    (kwargs : create_kwargs) (w : World) : teacher :=
  let t0 := mk_teacher (Teacher.next_pk (teachers w)) u None (kw_language kwargs)
              (kw_russian kwargs) (kw_native kwargs) (kw_language_support kwargs) in
  Teacher.set_position t0
    (Some (Teacher.generate_position in_case t0 (set_teachers (λ rows, rows ++ [t0]) w))).

Module MoreExamples.

Definition second_teacher : teacher :=
  mk_teacher 2 (mk_user 6 "Boris" true "pbkdf2_sha256$y") None Examples.french
    false true false.

(** Two active teachers; the first has French attached. *)
Definition school : World :=
  mk_world 0 (mk_date 2024 1 31) ∅
    {[ 5 := Examples.anna; 6 := mk_user 6 "Boris" true "pbkdf2_sha256$y" ]}
    ∅ ∅ [Examples.english; Examples.french] [Examples.anna_teacher; second_teacher]
    {[ (1, 2) ]} [5] [] [] [] [mk_free_time 1 1 true; mk_free_time 2 2 true]
    [mk_free_time 3 1 true] [] [].


Definition listing (path : string) : result (list string) :=
  if bool_decide (path = "/srv/app/materials/courses/templates/ru/EN-BASIC-S")
  then Ok ["module1.pdf"; "module1_theory.pdf"; "notes.txt"]
  else Ok [].

Definition has_directory (path : string) : bool :=
  bool_decide (path = "/srv/app/materials/courses/templates/ru/EN-BASIC-S").

Definition is_module (pattern f : string) : bool :=
  String.prefix "module" f.

Definition upper (c : string) : string :=
  if bool_decide (c = "en") then "EN" else if bool_decide (c = "fr") then "FR" else c.

Definition full_url (view : string) (args : list string) : string :=
  "/" +:+ join "/" args.

Definition sign (pk : Z) (f code : string) : string := pretty pk +:+ ":" +:+ f.

Definition words : list parse :=
  [mk_parse "анны" {[ "gent" ]}; mk_parse "анна" {[ "nomn"; "femn" ]}].

End MoreExamples.

(** * Properties *)

(** ** Floats: the quotient of two counts is a float, and so is its rounding *)

Module FloatFacts.
Import Float.

Lemma half_even_bounds q r den :
  q <= half_even q r den <= q + 1.
Proof.
  unfold half_even. destruct (_ || _); lia.
Qed.

Lemma pow2_pos e : 0 <= e → 0 < 2 ^ e.
Proof. intros. apply Z.pow_pos_nonneg; lia. Qed.

Lemma scaled_den_pos d e : 0 < d → 0 < scaled_den d e.
Proof.
  intros Hd. unfold scaled_den. destruct (0 <=? e) eqn:He; [|done].
  apply Z.leb_le in He. apply Z.mul_pos_pos; [done | by apply pow2_pos].
Qed.

Lemma scaled_num_nonneg n e : 0 <= n → 0 <= scaled_num n e.
Proof.
  intros Hn. unfold scaled_num. destruct (0 <=? e) eqn:He; [done|].
  apply Z.leb_gt in He. apply Z.mul_nonneg_nonneg; [done|].
  apply Z.lt_le_incl, pow2_pos. lia.
Qed.

(** With the exponent at least [log2 n - log2 d - 53], the scaled quotient
    stays below [2^54]. *)
Lemma scaled_quotient_lt n d e :
  0 < n → 0 < d → Z.log2 n - Z.log2 d - 53 <= e →
  scaled_num n e / scaled_den d e < 2 ^ 54.
Proof.
  intros Hn Hd He.
  destruct (Z.log2_spec n Hn) as [_ HnU].
  destruct (Z.log2_spec d Hd) as [HdL _].
  pose proof (Z.log2_nonneg n) as HL. pose proof (Z.log2_nonneg d) as HD.
  apply Z.div_lt_upper_bound; [by apply scaled_den_pos|].
  unfold scaled_num, scaled_den. destruct (0 <=? e) eqn:Hs.
  - apply Z.leb_le in Hs.
    apply Z.lt_le_trans with (2 ^ Z.succ (Z.log2 n)); [done|].
    apply Z.le_trans with (2 ^ Z.log2 d * 2 ^ e * 2 ^ 54).
    + rewrite <- !Z.pow_add_r by lia. apply Z.pow_le_mono_r; lia.
    + apply Z.mul_le_mono_nonneg_r; [lia|].
      apply Z.mul_le_mono_nonneg_r; [|done].
      apply Z.lt_le_incl, pow2_pos; lia.
  - apply Z.leb_gt in Hs.
    apply Z.lt_le_trans with (2 ^ Z.succ (Z.log2 n) * 2 ^ (- e)).
    + apply Z.mul_lt_mono_pos_r; [apply pow2_pos; lia | done].
    + apply Z.le_trans with (2 ^ Z.log2 d * 2 ^ 54).
      * rewrite <- !Z.pow_add_r by lia. apply Z.pow_le_mono_r; lia.
      * apply Z.mul_le_mono_nonneg_r; [lia | done].
Qed.

(** A positive quotient whose numerator is below [2^901] is a float, with
    a significand of at most [2^54] and an exponent of at most [log2 n]. *)
Lemma nearest_bounds n d :
  0 < n → 0 < d → Z.log2 n <= 900 →
  ∃ x, nearest n d = Some x ∧ 0 <= mant x <= 2 ^ 54 ∧ expo x <= Z.log2 n.
Proof.
  intros Hn Hd HL. unfold nearest.
  destruct (n =? 0) eqn:Hn0; [apply Z.eqb_eq in Hn0; lia|].
  pose proof (Z.log2_nonneg n) as HLn. pose proof (Z.log2_nonneg d) as HLd.
  set (e1 := Z.log2 n - Z.log2 d - 52).
  set (e2 := if 2 ^ 52 <=? scaled_num n e1 / scaled_den d e1 then e1 else e1 - 1).
  set (e := Z.max emin e2).
  set (num := scaled_num n e). set (den := scaled_den d e).
  set (m := half_even (num / den) (num mod den) den).
  assert (He2 : e1 - 1 <= e2 <= e1) by (unfold e2; destruct (_ <=? _); lia).
  assert (He : e2 <= e ∧ e <= Z.max emin e1) by (unfold e; lia).
  assert (Hq : 0 <= num / den < 2 ^ 54).
  { split.
    - apply Z.div_pos; [apply scaled_num_nonneg; lia | by apply scaled_den_pos].
    - apply scaled_quotient_lt; [done | done | unfold e1 in *; lia]. }
  pose proof (half_even_bounds (num / den) (num mod den) den) as Hm.
  fold m in Hm.
  assert (Hemin : emin = -1074) by done.
  assert (Hemax : emax = 971) by done.
  destruct (m =? 2 ^ 53) eqn:Hm53.
  - replace (2 ^ 52 =? 0) with false by done.
    assert (Hle : (emax <? e + 1) = false) by (apply Z.ltb_ge; unfold e1 in *; lia).
    rewrite Hle. eexists; split; [done|]. cbn [mant expo]. unfold e1 in *. lia.
  - destruct (m =? 0) eqn:Hm0.
    + eexists; split; [done|]. cbn. lia.
    + assert (Hle : (emax <? e) = false) by (apply Z.ltb_ge; unfold e1 in *; lia).
      rewrite Hle. eexists; split; [done|]. cbn [mant expo]. unfold e1 in *. lia.
Qed.

Lemma half_even_nearest q r den :
  0 <= r < den →
  2 * Z.abs (half_even q r den * den - (q * den + r)) <= den.
Proof.
  intros Hr. unfold half_even.
  destruct (den <? 2 * r) eqn:H1; [apply Z.ltb_lt in H1 | apply Z.ltb_ge in H1];
    cbn [orb].
  - nia.
  - destruct (2 * r =? den) eqn:H2; [apply Z.eqb_eq in H2 | apply Z.eqb_neq in H2];
      cbn [andb]; [destruct (Z.odd q)|]; nia.
Qed.

Lemma half_even_tie q r den :
  0 <= r < den →
  2 * Z.abs (half_even q r den * den - (q * den + r)) = den →
  Z.even (half_even q r den) = true.
Proof.
  intros Hr. unfold half_even.
  destruct (den <? 2 * r) eqn:H1; [apply Z.ltb_lt in H1 | apply Z.ltb_ge in H1];
    cbn [orb].
  - intros Heq. exfalso. nia.
  - destruct (2 * r =? den) eqn:H2; [apply Z.eqb_eq in H2 | apply Z.eqb_neq in H2];
      cbn [andb].
    + destruct (Z.odd q) eqn:Hodd; intros _.
      * replace (q + 1) with (Z.succ q) by lia. by rewrite Z.even_succ.
      * by rewrite <- Z.negb_odd, Hodd.
    + intros Heq. exfalso. nia.
Qed.

Lemma scaled_quotient_lt_pow n d e b :
  0 < n → 0 < d → 0 <= b → Z.log2 n - Z.log2 d + 1 - b <= e →
  scaled_num n e / scaled_den d e < 2 ^ b.
Proof.
  intros Hn Hd Hb He.
  destruct (Z.log2_spec n Hn) as [_ HnU].
  destruct (Z.log2_spec d Hd) as [HdL _].
  pose proof (Z.log2_nonneg n) as HL. pose proof (Z.log2_nonneg d) as HD.
  apply Z.div_lt_upper_bound; [by apply scaled_den_pos|].
  unfold scaled_num, scaled_den. destruct (0 <=? e) eqn:Hs.
  - apply Z.leb_le in Hs.
    apply Z.lt_le_trans with (2 ^ Z.succ (Z.log2 n)); [done|].
    apply Z.le_trans with (2 ^ Z.log2 d * 2 ^ e * 2 ^ b).
    + rewrite <- !Z.pow_add_r by lia. apply Z.pow_le_mono_r; lia.
    + apply Z.mul_le_mono_nonneg_r; [apply Z.lt_le_incl, pow2_pos; lia|].
      apply Z.mul_le_mono_nonneg_r; [|done].
      apply Z.lt_le_incl, pow2_pos; lia.
  - apply Z.leb_gt in Hs.
    apply Z.lt_le_trans with (2 ^ Z.succ (Z.log2 n) * 2 ^ (- e)).
    + apply Z.mul_lt_mono_pos_r; [apply pow2_pos; lia | done].
    + apply Z.le_trans with (2 ^ Z.log2 d * 2 ^ b).
      * rewrite <- !Z.pow_add_r by lia. apply Z.pow_le_mono_r; lia.
      * apply Z.mul_le_mono_nonneg_r; [apply Z.lt_le_incl, pow2_pos; lia | done].
Qed.

Lemma scaled_quotient_ge_pow n d e b :
  0 < n → 0 < d → 0 <= b → e <= Z.log2 n - Z.log2 d - 1 - b →
  2 ^ b <= scaled_num n e / scaled_den d e.
Proof.
  intros Hn Hd Hb He.
  destruct (Z.log2_spec n Hn) as [HnL _].
  destruct (Z.log2_spec d Hd) as [_ HdU].
  pose proof (Z.log2_nonneg n) as HL. pose proof (Z.log2_nonneg d) as HD.
  apply Z.div_le_lower_bound; [by apply scaled_den_pos|].
  unfold scaled_num, scaled_den. destruct (0 <=? e) eqn:Hs.
  - apply Z.leb_le in Hs.
    apply Z.le_trans with (2 ^ Z.log2 n); [|done].
    apply Z.le_trans with (2 ^ Z.succ (Z.log2 d) * 2 ^ e * 2 ^ b).
    + apply Z.mul_le_mono_nonneg_r; [apply Z.lt_le_incl, pow2_pos; lia|].
      apply Z.mul_le_mono_nonneg_r; [apply Z.lt_le_incl, pow2_pos; lia | lia].
    + rewrite <- !Z.pow_add_r by lia. apply Z.pow_le_mono_r; lia.
  - apply Z.leb_gt in Hs.
    apply Z.le_trans with (2 ^ Z.log2 n * 2 ^ (- e)).
    + apply Z.le_trans with (2 ^ Z.succ (Z.log2 d) * 2 ^ b).
      * apply Z.mul_le_mono_nonneg_r; [apply Z.lt_le_incl, pow2_pos; lia | lia].
      * rewrite <- !Z.pow_add_r by lia. apply Z.pow_le_mono_r; lia.
    + apply Z.mul_le_mono_nonneg_r; [apply Z.lt_le_incl, pow2_pos; lia | done].
Qed.

(** One binary place more in the scaling at most doubles the quotient. *)
Lemma scaled_relation n d e :
  scaled_num n (e - 1) * scaled_den d e = 2 * scaled_num n e * scaled_den d (e - 1).
Proof.
  unfold scaled_num, scaled_den.
  destruct (0 <=? e) eqn:H1; [apply Z.leb_le in H1 | apply Z.leb_gt in H1];
  destruct (0 <=? e - 1) eqn:H2; [apply Z.leb_le in H2 | apply Z.leb_gt in H2 | apply Z.leb_le in H2 | apply Z.leb_gt in H2]; try lia.
  - replace e with (Z.succ (e - 1)) at 1 by lia. rewrite Z.pow_succ_r by lia. ring.
  - assert (e = 0) as -> by lia. change (- (0 - 1)) with 1. change (2 ^ 0) with 1.
    change (2 ^ 1) with 2. ring.
  - replace (- (e - 1)) with (Z.succ (- e)) by lia. rewrite Z.pow_succ_r by lia. ring.
Qed.

Lemma div_lt_inv a b c : 0 < b → a / b < c → a < c * b.
Proof.
  intros Hb Hlt. pose proof (Z.div_mod a b ltac:(lia)).
  pose proof (Z.mod_pos_bound a b Hb). nia.
Qed.

Lemma scaled_step n d e c :
  0 <= n → 0 < d →
  scaled_num n e / scaled_den d e < c →
  scaled_num n (e - 1) / scaled_den d (e - 1) < 2 * c.
Proof.
  intros Hn Hd Hlt.
  pose proof (scaled_den_pos d e Hd) as Hden.
  pose proof (scaled_den_pos d (e - 1) Hd) as Hden'.
  apply div_lt_inv in Hlt; [|done].
  apply Z.div_lt_upper_bound; [done|].
  pose proof (scaled_relation n d e) as Hrel.
  nia.
Qed.

(** [nearest n d] is the binary64 number nearest to [n / d]: it is within
    half a unit in the last place of the quotient, an exact tie goes to the
    even significand, and the number is in canonical form (a significand of
    53 bits, or fewer only at the least exponent). *)
Lemma nearest_spec n d x :
  0 < n → 0 < d → nearest n d = Some x → x ≠ zero →
  2 * Z.abs (mant x * scaled_den d (expo x) - scaled_num n (expo x))
    <= scaled_den d (expo x)
  ∧ (2 * Z.abs (mant x * scaled_den d (expo x) - scaled_num n (expo x))
       = scaled_den d (expo x) →
     Z.even (mant x) = true)
  ∧ 0 < mant x < 2 ^ 53
  ∧ emin <= expo x <= emax
  ∧ (emin < expo x → 2 ^ 52 <= mant x).
Proof.
  intros Hn Hd Hx Hnz. unfold nearest in Hx.
  destruct (n =? 0) eqn:Hn0; [apply Z.eqb_eq in Hn0; lia|].
  set (e1 := Z.log2 n - Z.log2 d - 52) in Hx.
  set (c := 2 ^ 52 <=? scaled_num n e1 / scaled_den d e1) in Hx.
  set (e2 := if c then e1 else e1 - 1) in Hx.
  set (e := Z.max emin e2) in Hx.
  set (num := scaled_num n e) in Hx. set (den := scaled_den d e) in Hx.
  set (m := half_even (num / den) (num mod den) den) in Hx.
  assert (Hden : 0 < den) by (by apply scaled_den_pos).
  assert (Hnum : 0 <= num) by (apply scaled_num_nonneg; lia).
  assert (Hr : 0 <= num mod den < den) by (by apply Z.mod_pos_bound).
  assert (Hdm : num = num / den * den + num mod den).
  { rewrite (Z.div_mod num den) at 1 by lia. ring. }
  assert (Hq0 : 0 <= num / den) by (by apply Z.div_pos).
  assert (H252 : 2 ^ 53 = 2 * 2 ^ 52) by done.
  assert (Hq53 : num / den < 2 ^ 53).
  { destruct (Z_le_gt_dec e1 e) as [Hge | Hlt].
    - apply scaled_quotient_lt_pow; [done | done | lia | unfold e1 in Hge; lia].
    - assert (He : e = e1 - 1).
      { unfold e, e2 in *. destruct c; lia. }
      assert (Hc : c = false).
      { unfold e, e2 in *. destruct c; [lia | done]. }
      unfold num, den. rewrite He, H252. apply scaled_step; [lia | done |].
      unfold c in Hc. by apply Z.leb_gt in Hc. }
  assert (Hq52 : emin < e → 2 ^ 52 <= num / den).
  { intros Hlt. assert (He : e = e2) by (unfold e in *; lia).
    unfold num, den. rewrite He. unfold e2. destruct c eqn:Hc.
    - unfold c in Hc. by apply Z.leb_le in Hc.
    - apply scaled_quotient_ge_pow; [done | done | lia | unfold e1; lia]. }
  pose proof (half_even_bounds (num / den) (num mod den) den) as Hm. fold m in Hm.
  pose proof (half_even_nearest (num / den) (num mod den) den Hr) as Hnear.
  pose proof (half_even_tie (num / den) (num mod den) den Hr) as Htie.
  fold m in Hnear, Htie. rewrite <- Hdm in Hnear, Htie.
  assert (Hemin : emin <= e) by (unfold e; lia).
  destruct (m =? 2 ^ 53) eqn:Hm53.
  - apply Z.eqb_eq in Hm53.
    replace (2 ^ 52 =? 0) with false in Hx by done.
    destruct (emax <? e + 1) eqn:Hov; [done|]. apply Z.ltb_ge in Hov.
    injection Hx as <-. cbn [mant expo].
    pose proof (scaled_relation n d (e + 1)) as Hrel.
    replace (e + 1 - 1) with e in Hrel by lia. fold num den in Hrel.
    pose proof (scaled_den_pos d (e + 1) Hd) as Hden'.
    pose proof (scaled_num_nonneg n (e + 1) ltac:(lia)) as Hnum'.
    assert (Hup : den <= 2 * (num mod den)).
    { unfold m, half_even in Hm53.
      destruct (den <? 2 * (num mod den)) eqn:H1; cbn [orb] in Hm53.
      - apply Z.ltb_lt in H1. lia.
      - destruct (2 * (num mod den) =? den) eqn:H2; cbn [andb] in Hm53.
        + apply Z.eqb_eq in H2. lia.
        + lia. }
    assert (Hq : num / den = 2 ^ 53 - 1) by lia.
    rewrite Hq in Hdm.
    split_and!; [nia | done | by apply pow2_pos | by apply Z.pow_lt_mono_r | lia | lia | done].
  - apply Z.eqb_neq in Hm53.
    destruct (m =? 0) eqn:Hm0; [by injection Hx as <-|]. apply Z.eqb_neq in Hm0.
    destruct (emax <? e) eqn:Hov; [done|]. apply Z.ltb_ge in Hov.
    injection Hx as <-. cbn [mant expo]. fold num den.
    split_and!; [done | done | lia | lia | done | done | lia].
Qed.

(** [hundredths x] is the integer nearest to [100 * x], ties to even. *)
Lemma hundredths_spec x :
  (0 <= expo x → hundredths x = 100 * mant x * 2 ^ expo x)
  ∧ (expo x < 0 →
     2 * Z.abs (hundredths x * 2 ^ (- expo x) - 100 * mant x) <= 2 ^ (- expo x)
     ∧ (2 * Z.abs (hundredths x * 2 ^ (- expo x) - 100 * mant x) = 2 ^ (- expo x) →
        Z.even (hundredths x) = true)).
Proof.
  unfold hundredths. split; intros He.
  - apply Z.leb_le in He. by rewrite He.
  - assert (Hs : (0 <=? expo x) = false) by (apply Z.leb_gt; lia). rewrite Hs.
    assert (Hp : 0 < 2 ^ (- expo x)) by (apply pow2_pos; lia).
    pose proof (Z.mod_pos_bound (100 * mant x) (2 ^ (- expo x)) Hp) as Hr.
    assert (Hdm : 100 * mant x
                  = 100 * mant x / 2 ^ (- expo x) * 2 ^ (- expo x)
                    + (100 * mant x) mod 2 ^ (- expo x)).
    { rewrite (Z.div_mod (100 * mant x) (2 ^ (- expo x))) at 1 by lia. ring. }
    pose proof (half_even_nearest (100 * mant x / 2 ^ (- expo x))
                  ((100 * mant x) mod 2 ^ (- expo x)) (2 ^ (- expo x)) Hr) as Hnear.
    pose proof (half_even_tie (100 * mant x / 2 ^ (- expo x))
                  ((100 * mant x) mod 2 ^ (- expo x)) (2 ^ (- expo x)) Hr) as Htie.
    rewrite <- Hdm in Hnear, Htie. by split.
Qed.

Lemma hundredths_bounds x :
  0 <= mant x <= 2 ^ 54 → expo x <= 100 →
  0 <= hundredths x < 2 ^ 200.
Proof.
  intros Hm He. unfold hundredths. destruct (0 <=? expo x) eqn:Hs.
  - apply Z.leb_le in Hs. split.
    + apply Z.mul_nonneg_nonneg; [lia | apply Z.lt_le_incl, pow2_pos; lia].
    + apply Z.le_lt_trans with (2 ^ 61 * 2 ^ 100).
      * apply Z.mul_le_mono_nonneg; [lia | lia | apply Z.lt_le_incl, pow2_pos; lia |].
        apply Z.pow_le_mono_r; lia.
      * rewrite <- Z.pow_add_r by lia. apply Z.pow_lt_mono_r; lia.
  - apply Z.leb_gt in Hs.
    assert (Hp : 0 < 2 ^ (- expo x)) by (apply pow2_pos; lia).
    pose proof (half_even_bounds (100 * mant x / 2 ^ (- expo x))
                  (100 * mant x mod 2 ^ (- expo x)) (2 ^ (- expo x))) as Hh.
    assert (Hq : 0 <= 100 * mant x / 2 ^ (- expo x) <= 100 * mant x).
    { split; [apply Z.div_pos; lia|].
      apply Z.div_le_upper_bound; [done|]. nia. }
    assert (2 ^ 62 < 2 ^ 200) by (apply Z.pow_lt_mono_r; lia).
    lia.
Qed.

Lemma nearest_zero d : nearest 0 d = Some zero.
Proof. done. Qed.

(** Rounding a float of moderate size to two decimals gives a float. *)
Lemma round2_ok x :
  0 <= mant x <= 2 ^ 54 → expo x <= 100 → ∃ y, round2 x = Ok y.
Proof.
  intros Hm He. unfold round2.
  destruct (hundredths_bounds x Hm He) as [H0 H1].
  destruct (Z.eq_dec (hundredths x) 0) as [Hz | Hnz].
  - rewrite Hz, nearest_zero. by eexists.
  - destruct (nearest_bounds (hundredths x) 100) as (y & Hy & _); [lia | lia | |].
    + assert (Z.log2 (hundredths x) < 200) by (apply Z.log2_lt_pow2; lia). lia.
    + rewrite Hy. by eexists.
Qed.

(** The quotient of a count by a positive count, rounded to two decimals,
    is a float. *)
Lemma round2_truediv_ok p d :
  0 <= p < 2 ^ 63 → 0 < d →
  ∃ q y, truediv p d = Ok q ∧ round2 q = Ok y.
Proof.
  intros Hp Hd. unfold truediv.
  destruct (d =? 0) eqn:Hd0; [apply Z.eqb_eq in Hd0; lia|].
  destruct (Z.eq_dec p 0) as [-> | Hnz].
  - rewrite nearest_zero. exists zero. destruct (round2_ok zero) as [y Hy]; [done | done |].
    by exists y.
  - assert (HL : Z.log2 p < 63) by (apply Z.log2_lt_pow2; lia).
    destruct (nearest_bounds p d) as (q & Hq & Hm & He); [lia | lia | lia |].
    rewrite Hq. destruct (round2_ok q) as [y Hy]; [done | lia |].
    by exists q, y.
Qed.

Lemma truediv_nonzero p d : d ≠ 0 → truediv p d ≠ Raise ZeroDivisionError.
Proof.
  intros Hd. unfold truediv.
  destruct (d =? 0) eqn:Hd0; [apply Z.eqb_eq in Hd0; lia|].
  by destruct (nearest p d).
Qed.

Lemma round2_not_zero_division x : round2 x ≠ Raise ZeroDivisionError.
Proof. unfold round2. by destruct (nearest _ _). Qed.

End FloatFacts.

(** ** The monad and the cache *)

Lemma bind_run {A B} (m : M A) (k : A → M B) (w : World) :
  (m ≫= k) w =
  match m w with
  | (Ok a, w') => k a w'
  | (Raise e, w') => (Raise e, w')
  end.
Proof. reflexivity. Qed.

(** A cached read of a query either returns the live entry and leaves the
    world alone, or returns the value of the query and stores it. *)
Lemma cached_gets key timeout (f : World → Z) w :
  cached key timeout (gets f) w =
  match cache w !! key with
  | Some (v, expiry) =>
      if clock w <? expiry then (Ok v, w)
      else (Ok (f w), set_cache (λ c, <[key := (f w, clock w + timeout)]> c) w)
  | None => (Ok (f w), set_cache (λ c, <[key := (f w, clock w + timeout)]> c) w)
  end.
Proof.
  unfold cached. destruct (cache w !! key) as [[v expiry]|]; [|done].
  by destruct (clock w <? expiry).
Qed.

Lemma cached_miss key timeout (f : World → Z) w :
  cache_miss key w →
  cached key timeout (gets f) w =
  (Ok (f w), set_cache (λ c, <[key := (f w, clock w + timeout)]> c) w).
Proof.
  intros Hmiss. rewrite cached_gets. unfold cache_miss in Hmiss.
  destruct (cache w !! key) as [[v expiry]|]; [|done].
  destruct (clock w <? expiry) eqn:Hlt; [|done].
  apply Z.ltb_lt in Hlt. lia.
Qed.

(** A cached read returns a value and changes at most the cache; the value
    and every cached value satisfy what the query's value and the values
    cached before satisfy. *)
Lemma cached_inv (P : Z → Prop) key timeout (f : World → Z) w :
  (∀ k v e, cache w !! k = Some (v, e) → P v) → P (f w) →
  ∃ v g, cached key timeout (gets f) w = (Ok v, set_cache g w)
         ∧ P v
         ∧ (∀ k v' e, cache (set_cache g w) !! k = Some (v', e) → P v').
Proof.
  intros Hc Hf. rewrite cached_gets.
  assert (Hstore : ∀ k v' e,
    cache (set_cache (λ c, <[key := (f w, clock w + timeout)]> c) w) !! k = Some (v', e) →
    P v').
  { intros k v' e. cbn. rewrite lookup_insert. case_decide.
    - intros [= <- _]. done.
    - apply Hc. }
  destruct (cache w !! key) as [[v expiry]|] eqn:Hk.
  - destruct (clock w <? expiry).
    + exists v, (λ c, c). split; [by destruct w|]. split; [by eapply Hc|].
      intros k v' e. apply Hc.
    + by eexists _, _.
  - by eexists _, _.
Qed.

(** ** Conversion *)

Lemma finished_demo_lessons_le self w :
  Z.of_nat (length (Teacher._finished_demo_lessons self w)) <= Z.of_nat (length (lessons w)).
Proof.
  unfold Teacher._finished_demo_lessons.
  pose proof (List.filter_length_le
    (λ l, (stl_teacher l =? t_pk self)
          && Teacher.is_demo (sc_base_course (stl_course l)) && stl_finished l)
    (lessons w)). lia.
Qed.

(** The loop of [paid_after_demo] counts the lessons it keeps. *)
Lemma paid_loop_count w (ls : list lesson) (acc : Z) :
  fold_left
    (λ students_pay l,
       if Teacher.paid_course_exists w l then students_pay + 1 else students_pay)
    ls acc
  = acc + Z.of_nat (length (List.filter (Teacher.paid_course_exists w) ls)).
Proof.
  revert acc. induction ls as [|l ls IH]; intros acc; cbn [fold_left List.filter].
  - cbn. lia.
  - rewrite IH. destruct (Teacher.paid_course_exists w l); cbn [length]; lia.
Qed.

Lemma paid_after_demo_body_count self w :
  Teacher.paid_after_demo_body self w =
  Z.of_nat (length (List.filter (Teacher.paid_course_exists w)
                      (Teacher._finished_demo_lessons self w))).
Proof. unfold Teacher.paid_after_demo_body. by rewrite paid_loop_count. Qed.

Lemma paid_after_demo_body_bounds self w :
  0 <= Teacher.paid_after_demo_body self w <= Z.of_nat (length (lessons w)).
Proof.
  rewrite paid_after_demo_body_count.
  pose proof (List.filter_length_le (Teacher.paid_course_exists w)
                (Teacher._finished_demo_lessons self w)).
  pose proof (finished_demo_lessons_le self w). lia.
Qed.

(** C1: [conversion] is exactly 1.0 when the finished-demo-lesson count it
    reads is below 10, whatever the paid-after-demo count; from 10 on it is
    [round(paid_after_demo / finished_demo_lessons, 2)] of the two counts it
    reads; with 10 finished demos and 3 paid after demo it is the float
    0.3.  The count it reads is the number of finished demo lessons whenever
    the cache has no live entry for it. *)
Theorem conversion_value (self : teacher) (w w1 : World) (d : Z) :
  Teacher.finished_demo_lessons self w = (Ok d, w1) →
  (d < 10 → Teacher.conversion self w = (Ok Float.one, w1))
  ∧ (10 <= d → ∀ p w2,
       Teacher.paid_after_demo self w1 = (Ok p, w2) →
       Teacher.conversion self w =
       (match Float.truediv p d with
        | Ok q => Float.round2 q
        | Raise e => Raise e
        end, w2))
  ∧ (d = 10 → ∀ w2,
       Teacher.paid_after_demo self w1 = (Ok 3, w2) →
       ∃ x, Float.literal2 30 = Some x ∧ Teacher.conversion self w = (Ok x, w2))
  ∧ (cache_miss (Teacher.finished_demo_lessons_key self) w →
     d = Z.of_nat (length (Teacher._finished_demo_lessons self w))).
Proof.
  intros Hd.
  assert (Hfresh : cache_miss (Teacher.finished_demo_lessons_key self) w →
                   d = Z.of_nat (length (Teacher._finished_demo_lessons self w))).
  { intros Hmiss. unfold Teacher.finished_demo_lessons in Hd.
    rewrite (cached_miss _ _ _ _ Hmiss) in Hd. by injection Hd as <- _. }
  assert (Hgen : 10 <= d → ∀ p w2,
       Teacher.paid_after_demo self w1 = (Ok p, w2) →
       Teacher.conversion self w =
       (match Float.truediv p d with
        | Ok q => Float.round2 q
        | Raise e => Raise e
        end, w2)).
  { intros Hge p w2 Hp. unfold Teacher.conversion. rewrite bind_run, Hd.
    destruct (d <? Teacher.DEMOS_MIN) eqn:Hlt.
    { apply Z.ltb_lt in Hlt. unfold Teacher.DEMOS_MIN in Hlt. lia. }
    rewrite bind_run, Hp, bind_run. unfold lift.
    by destruct (Float.truediv p d). }
  split; [|split; [exact Hgen|split; [|exact Hfresh]]].
  - intros Hlt. unfold Teacher.conversion. rewrite bind_run, Hd.
    destruct (d <? Teacher.DEMOS_MIN) eqn:Hc; [done|].
    apply Z.ltb_ge in Hc. unfold Teacher.DEMOS_MIN in Hc. lia.
  - intros -> w2 Hp. eexists. split; [by vm_compute|].
    rewrite (Hgen ltac:(lia) 3 w2 Hp). by vm_compute.
Qed.

Lemma conversion_value_witness :
  value (Teacher.conversion Examples.anna_teacher Examples.ten_demos)
  = Ok (Float.mk 5404319552844595 (-54)).
Proof.
  pose (w1 := world_after (Teacher.finished_demo_lessons Examples.anna_teacher
                             Examples.ten_demos)).
  pose (w2 := world_after (Teacher.paid_after_demo Examples.anna_teacher w1)).
  destruct (conversion_value Examples.anna_teacher Examples.ten_demos w1 10)
    as (_ & _ & H & _); [by vm_compute|].
  destruct (H eq_refl w2) as (x & Hx & Hc); [by vm_compute|].
  rewrite Hc. cbn [value fst]. f_equal.
  vm_compute in Hx. by injection Hx as <-.
Defined.

(** C10: [conversion] never divides by zero, because the quotient is only
    taken once the finished-demo-lesson count is at least 10; and on a world
    whose counts fit a machine integer it returns a float. *)
Theorem conversion_total (self : teacher) (w : World) :
  value (Teacher.conversion self w) ≠ Raise ZeroDivisionError
  ∧ (bounded_counts w → ∃ x, value (Teacher.conversion self w) = Ok x).
Proof.
  unfold Teacher.conversion. rewrite bind_run. split.
  - unfold Teacher.finished_demo_lessons.
    destruct (cached_inv (λ _, True) (Teacher.finished_demo_lessons_key self)
                (days2sec 1)
                (λ w, Z.of_nat (length (Teacher._finished_demo_lessons self w))) w)
      as (d & g & -> & _); [done | done |].
    destruct (d <? Teacher.DEMOS_MIN) eqn:Hlt; [done|].
    apply Z.ltb_ge in Hlt. unfold Teacher.DEMOS_MIN in Hlt.
    rewrite bind_run. unfold Teacher.paid_after_demo.
    destruct (cached_inv (λ _, True) (Teacher.paid_after_demo_key self)
                (days2sec 1) (Teacher.paid_after_demo_body self) (set_cache g w))
      as (p & g' & -> & _); [done | done |].
    rewrite bind_run. unfold lift.
    pose proof (FloatFacts.truediv_nonzero p d ltac:(lia)) as Hne.
    destruct (Float.truediv p d) as [q|e]; cbn [value fst].
    + apply FloatFacts.round2_not_zero_division.
    + done.
  - intros [Hcache Hrows]. unfold Teacher.finished_demo_lessons.
    destruct (cached_inv (λ v, 0 <= v < 2 ^ 63)
                (Teacher.finished_demo_lessons_key self) (days2sec 1)
                (λ w, Z.of_nat (length (Teacher._finished_demo_lessons self w))) w)
      as (d & g & -> & Hd & Hcache1); [done | |].
    { pose proof (finished_demo_lessons_le self w). lia. }
    destruct (d <? Teacher.DEMOS_MIN) eqn:Hlt; [by eexists|].
    apply Z.ltb_ge in Hlt. unfold Teacher.DEMOS_MIN in Hlt.
    rewrite bind_run. unfold Teacher.paid_after_demo.
    destruct (cached_inv (λ v, 0 <= v < 2 ^ 63)
                (Teacher.paid_after_demo_key self) (days2sec 1)
                (Teacher.paid_after_demo_body self) (set_cache g w))
      as (p & g' & -> & Hp & _); [done | |].
    { pose proof (paid_after_demo_body_bounds self (set_cache g w)) as Hb.
      change (lessons (set_cache g w)) with (lessons w) in Hb. lia. }
    rewrite bind_run. unfold lift.
    destruct (FloatFacts.round2_truediv_ok p d) as (q & y & -> & Hy); [done | lia |].
    cbn [value fst]. by exists y.
Qed.

Lemma conversion_total_witness :
  bounded_counts Examples.ten_demos
  ∧ ∃ x, value (Teacher.conversion Examples.anna_teacher Examples.ten_demos) = Ok x.
Proof.
  assert (H : bounded_counts Examples.ten_demos).
  { split; [|by vm_compute]. intros key v expiry Hk.
    change (cache Examples.ten_demos) with (∅ : gmap string (Z * Z)) in Hk.
    by rewrite lookup_empty in Hk. }
  split; [exact H|].
  exact (proj2 (conversion_total Examples.anna_teacher Examples.ten_demos) H).
Defined.

(** ** Paid after demo *)

Lemma finished_demo_lessons_In self w l :
  In l (Teacher._finished_demo_lessons self w) ↔
  In l (lessons w) ∧ stl_teacher l = t_pk self ∧ stl_finished l = true
  ∧ (bc_code (sc_base_course (stl_course l)) = "DEMO"
     ∨ bc_code (sc_base_course (stl_course l)) = "NATIVE-DEMO").
Proof.
  unfold Teacher._finished_demo_lessons, Teacher.is_demo.
  rewrite List.filter_In, !andb_true_iff, orb_true_iff, Z.eqb_eq,
    !bool_decide_eq_true.
  tauto.
Qed.

Lemma paid_course_exists_iff w l :
  Teacher.paid_course_exists w l = true ↔
  ∃ c, In c (courses w)
       ∧ sc_student c = sc_student (stl_course l)
       ∧ stl_start l <= sc_created c
       ∧ bc_code (sc_base_course c) ≠ "DEMO"
       ∧ bc_code (sc_base_course c) ≠ "NATIVE-DEMO".
Proof.
  unfold Teacher.paid_course_exists. rewrite List.existsb_exists.
  split; intros (c & Hin & Hc); exists c; (split; [done|]).
  - rewrite !andb_true_iff, !negb_true_iff, Z.eqb_eq, Z.ltb_ge,
      !bool_decide_eq_false in Hc. tauto.
  - rewrite !andb_true_iff, !negb_true_iff, Z.eqb_eq, Z.ltb_ge,
      !bool_decide_eq_false. tauto.
Qed.

(** C2, as the code has it: when it is not served from the cache,
    [paid_after_demo] is the number of finished demo lessons of the teacher
    (lessons of a DEMO or NATIVE-DEMO course, marked finished) whose student
    has a course that is neither DEMO nor NATIVE-DEMO and was created at or
    after the start of that lesson.  It counts lessons: a student with
    several such lessons is counted once for each. *)
Theorem paid_after_demo_counts_lessons (self : teacher) (w : World) :
  cache_miss (Teacher.paid_after_demo_key self) w →
  value (Teacher.paid_after_demo self w)
  = Ok (Z.of_nat (length (List.filter (Teacher.paid_course_exists w)
                            (Teacher._finished_demo_lessons self w))))
  ∧ (∀ l, In l (Teacher._finished_demo_lessons self w) ↔
          In l (lessons w) ∧ stl_teacher l = t_pk self ∧ stl_finished l = true
          ∧ (bc_code (sc_base_course (stl_course l)) = "DEMO"
             ∨ bc_code (sc_base_course (stl_course l)) = "NATIVE-DEMO"))
  ∧ (∀ l, Teacher.paid_course_exists w l = true ↔
          ∃ c, In c (courses w)
               ∧ sc_student c = sc_student (stl_course l)
               ∧ stl_start l <= sc_created c
               ∧ bc_code (sc_base_course c) ≠ "DEMO"
               ∧ bc_code (sc_base_course c) ≠ "NATIVE-DEMO").
Proof.
  intros Hmiss. split; [|split].
  - unfold Teacher.paid_after_demo. rewrite (cached_miss _ _ _ _ Hmiss).
    cbn [value fst]. by rewrite paid_after_demo_body_count.
  - apply finished_demo_lessons_In.
  - apply paid_course_exists_iff.
Qed.

Lemma paid_after_demo_counts_lessons_witness :
  value (Teacher.paid_after_demo Examples.anna_teacher Examples.two_demos_one_student)
  = Ok 2.
Proof.
  assert (Hmiss : cache_miss (Teacher.paid_after_demo_key Examples.anna_teacher)
                    Examples.two_demos_one_student) by (by vm_compute).
  rewrite (proj1 (paid_after_demo_counts_lessons Examples.anna_teacher
                    Examples.two_demos_one_student Hmiss)).
  by vm_compute.
Defined.

(** C2 as stated fails: a student with two finished demo
    lessons and a course bought after both is counted twice, while the
    students who paid after their demo are one. *)
Lemma paid_after_demo_counts_a_student_twice :
  value (Teacher.paid_after_demo Examples.anna_teacher Examples.two_demos_one_student)
  ≠ Ok (Z.of_nat (size (Teacher.paying_students Examples.anna_teacher
                          Examples.two_demos_one_student))).
Proof. by vm_compute. Qed.

(** ** Languages *)

Lemma additional_languages_all_In self w l :
  In l (Teacher.additional_languages_all self w) ↔
  In l (languages w) ∧ (t_pk self, lang_pk l) ∈ additional_languages w.
Proof.
  unfold Teacher.additional_languages_all.
  by rewrite List.filter_In, bool_decide_eq_true.
Qed.

Lemma elem_of_list_to_set_map {A} (f : A → string) (l : list A) (x : string) :
  x ∈ (list_to_set (map f l) : gset string) ↔ ∃ a, In a l ∧ f a = x.
Proof.
  rewrite elem_of_list_to_set, list_elem_of_In, List.in_map_iff.
  split; intros (a & H1 & H2); exists a; tauto.
Qed.

Lemma all_languages_codes_elem self w c :
  c ∈ Teacher.all_languages_codes self w ↔
  c = lang_code (t_language self)
  ∨ ∃ l, In l (languages w)
         ∧ (t_pk self, lang_pk l) ∈ additional_languages w
         ∧ lang_code l = c.
Proof.
  unfold Teacher.all_languages_codes.
  rewrite elem_of_union, elem_of_singleton, elem_of_list_to_set_map. split.
  - intros [-> | (l & Hl & <-)]; [by left | right].
    apply additional_languages_all_In in Hl. exists l. tauto.
  - intros [-> | (l & Hl & Hadd & <-)]; [by left | right].
    exists l. split; [|done]. apply additional_languages_all_In. tauto.
Qed.

(** C5: [all_languages_codes] holds the code of the primary language and
    the codes of the additional languages and nothing else; so the primary
    code is always in it and it is never empty. *)
Theorem all_languages_codes_union (self : teacher) (w : World) :
  (∀ c, c ∈ Teacher.all_languages_codes self w ↔
        c = lang_code (t_language self)
        ∨ ∃ l, In l (languages w)
               ∧ (t_pk self, lang_pk l) ∈ additional_languages w
               ∧ lang_code l = c)
  ∧ lang_code (t_language self) ∈ Teacher.all_languages_codes self w
  ∧ Teacher.all_languages_codes self w ≠ ∅
  ∧ (0 < size (Teacher.all_languages_codes self w))%nat.
Proof.
  assert (Hin : lang_code (t_language self) ∈ Teacher.all_languages_codes self w).
  { apply all_languages_codes_elem. by left. }
  split; [intros c; apply all_languages_codes_elem|].
  split; [exact Hin|].
  split; [set_solver|].
  destruct (size _) eqn:Hs; [|lia].
  apply size_empty_inv in Hs. set_solver.
Qed.

Lemma lesson_languages_spec self student w x :
  x ∈ Teacher.lesson_languages self student w ↔
  ∃ l, In l (lessons w) ∧ sc_student (stl_course l) = student
       ∧ stl_teacher l = t_pk self
       ∧ lang_machine_name (bc_language (sc_base_course (stl_course l))) = x.
Proof.
  unfold Teacher.lesson_languages. rewrite elem_of_list_to_set_map.
  split; intros (l & Hl & Hx).
  - apply List.filter_In in Hl as [Hin Hc].
    rewrite andb_true_iff, !Z.eqb_eq in Hc. exists l. tauto.
  - exists l. split; [|tauto]. apply List.filter_In.
    rewrite andb_true_iff, !Z.eqb_eq. tauto.
Qed.

Lemma teacher_languages_spec self w x :
  x ∈ Teacher.teacher_languages self w ↔
  x = lang_machine_name (t_language self)
  ∨ ∃ l, In l (languages w) ∧ (t_pk self, lang_pk l) ∈ additional_languages w
         ∧ lang_machine_name l = x.
Proof.
  unfold Teacher.teacher_languages.
  rewrite elem_of_list_to_set, elem_of_app, list_elem_of_In, List.in_map_iff,
    list_elem_of_singleton.
  split.
  - intros [(l & <- & Hl) | ->]; [right | by left].
    apply additional_languages_all_In in Hl. exists l. tauto.
  - intros [-> | (l & Hl & Hadd & <-)]; [by right | left].
    exists l. split; [done|]. apply additional_languages_all_In. tauto.
Qed.

(** C6, as the code has it: [language_for_student] works on machine names
    of languages, not on their codes.  It returns one of the machine names
    that are both among the languages of the student's lessons with the
    teacher and among the teacher's languages, whichever the set hands out
    first, and the machine name of the primary language when there is
    none. *)
Theorem language_for_student_machine_name
    (set_order : gset string → list string) (self : teacher) (student : Z) (w : World) :
  lists_elements set_order →
  (Teacher.lesson_languages self student w ∩ Teacher.teacher_languages self w ≠ ∅ →
   ∃ x, Teacher.language_for_student set_order self student w = Ok x
        ∧ x ∈ Teacher.lesson_languages self student w
        ∧ x ∈ Teacher.teacher_languages self w)
  ∧ (Teacher.lesson_languages self student w ∩ Teacher.teacher_languages self w = ∅ →
     Teacher.language_for_student set_order self student w
     = Ok (lang_machine_name (t_language self)))
  ∧ (∀ x, x ∈ Teacher.lesson_languages self student w ↔
          ∃ l, In l (lessons w) ∧ sc_student (stl_course l) = student
               ∧ stl_teacher l = t_pk self
               ∧ lang_machine_name (bc_language (sc_base_course (stl_course l))) = x)
  ∧ (∀ x, x ∈ Teacher.teacher_languages self w ↔
          x = lang_machine_name (t_language self)
          ∨ ∃ l, In l (languages w) ∧ (t_pk self, lang_pk l) ∈ additional_languages w
                 ∧ lang_machine_name l = x).
Proof.
  intros Horder.
  split; [|split; [|split]].
  - intros Hne. unfold Teacher.language_for_student, Teacher.set_pop.
    destruct (set_order _) as [|x rest] eqn:Hso.
    + exfalso. apply Hne. apply set_eq. intros y.
      pose proof (Horder (Teacher.lesson_languages self student w
                          ∩ Teacher.teacher_languages self w) y) as Hy.
      rewrite Hso in Hy.
      split; [intros Hin; apply Hy in Hin; destruct Hin | set_solver].
    + exists x. split; [done|]. apply elem_of_intersection.
      apply Horder. rewrite Hso. by left.
  - intros Hempty. unfold Teacher.language_for_student, Teacher.set_pop.
    rewrite Hempty. destruct (set_order ∅) as [|x rest] eqn:Hso; [done|].
    exfalso. assert (Hx : x ∈ (∅ : gset string)).
    { apply Horder. rewrite Hso. by left. }
    set_solver.
  - intros x. apply lesson_languages_spec.
  - apply teacher_languages_spec.
Qed.

Lemma set_order_lists_elements : lists_elements Examples.set_order.
Proof.
  intros s x. unfold Examples.set_order.
  by rewrite <- list_elem_of_In, elem_of_elements.
Defined.

Lemma language_for_student_machine_name_witness :
  Teacher.language_for_student Examples.set_order Examples.anna_teacher 7
    Examples.empty_world
  = Ok "english".
Proof.
  apply (language_for_student_machine_name Examples.set_order Examples.anna_teacher 7
           Examples.empty_world set_order_lists_elements).
  by vm_compute.
Defined.

(** C6 as stated fails: for a teacher of English (code [en],
    machine name [english]) and a student without lessons, the intersection
    is empty and the answer is [english], not the primary language's code;
    for a student with English lessons the answer is [english], not one of
    the teacher's language codes. *)
Lemma language_for_student_not_a_code :
  Teacher.lesson_languages Examples.anna_teacher 7 Examples.empty_world
    ∩ Teacher.teacher_languages Examples.anna_teacher Examples.empty_world = ∅
  ∧ Teacher.language_for_student Examples.set_order Examples.anna_teacher 7
      Examples.empty_world
    ≠ Ok (lang_code (t_language Examples.anna_teacher))
  ∧ ∃ x, Teacher.language_for_student Examples.set_order Examples.anna_teacher 7
           Examples.two_demos_one_student = Ok x
         ∧ x ∉ Teacher.all_languages_codes Examples.anna_teacher
                 Examples.two_demos_one_student.
Proof.
  split; [by vm_compute|]. split; [by vm_compute|].
  exists "english". split; [by vm_compute|].
  rewrite all_languages_codes_elem.
  intros [Heq | (l & _ & Hadd & _)]; [done|].
  change (additional_languages Examples.two_demos_one_student)
    with (∅ : gset (Z * Z)) in Hadd.
  set_solver.
Qed.

(** ** Basic materials *)

(** C8: a teacher whose russian-market flag is unset gets no basic
    materials, whatever the disk holds and whatever the other outside
    services answer. *)
Theorem get_basic_materials_not_russian
    (set_order : gset string → list string) (str_upper : string → string)
    (BASE_DIR : string) (os_path_exists : string → bool)
    (os_listdir : string → result (list string)) (re_match : string → string → bool)
    (get_full_url : string → list string → string)
    (signing_dumps : Z → string → string → string)
    (self : teacher) (w : World) :
  t_russian self = false →
  Teacher.get_basic_materials set_order str_upper BASE_DIR os_path_exists os_listdir
    re_match get_full_url signing_dumps self w
  = Ok [].
Proof. intros Hr. unfold Teacher.get_basic_materials. by rewrite Hr. Qed.

Lemma get_basic_materials_not_russian_witness :
  t_russian Examples.not_russian = false
  ∧ Teacher.get_basic_materials Examples.set_order (λ c, c) "/srv/app" (λ _, true)
      (λ _, Ok ["module1.pdf"; "module1_theory.pdf"]) (λ _ _, true)
      (λ view args, "/" +:+ view) (λ pk f code, f +:+ code)
      Examples.not_russian Examples.empty_world
    = Ok [].
Proof.
  split; [reflexivity|].
  apply get_basic_materials_not_russian. reflexivity.
Defined.

(** ** The name of a material *)

(** C9, as the code has it: for a material with a file attached, [name]
    does not raise; it is the base name of the stored file when the storage
    has it and the placeholder when it has not.  (Only [FileNotFoundError] is
    caught: without an attached file the field raises [ValueError], and
    [name] lets it through.) *)
Theorem material_name_of_attached_file
    (materials_fs_exists : string → bool) (materials_fs_path : string → string)
    (self : teacher_material) :
  tm_attachment self ≠ "" →
  (materials_fs_exists (tm_attachment self) = true →
   TeacherMaterial.name materials_fs_exists materials_fs_path self
   = Ok (os_path_basename (materials_fs_path (tm_attachment self))))
  ∧ (materials_fs_exists (tm_attachment self) = false →
     TeacherMaterial.name materials_fs_exists materials_fs_path self
     = Ok "-- file not found --").
Proof.
  intros Hne.
  unfold TeacherMaterial.name, TeacherMaterial.attachment_file_name,
    TeacherMaterial.materials_fs_open.
  rewrite bool_decide_eq_false_2 by done.
  split; intros ->; reflexivity.
Qed.

Lemma material_name_of_attached_file_witness :
  TeacherMaterial.name Examples.stored Examples.stored_path Examples.unit1
  = Ok "unit1.pdf"
  ∧ TeacherMaterial.name Examples.stored Examples.stored_path Examples.lost
    = Ok "-- file not found --".
Proof.
  split.
  - apply (material_name_of_attached_file Examples.stored Examples.stored_path
             Examples.unit1); [discriminate | reflexivity].
  - apply (material_name_of_attached_file Examples.stored Examples.stored_path
             Examples.lost); [discriminate | reflexivity].
Defined.

(** C9 as stated fails: a material without an attached file
    raises [ValueError]. *)
Lemma material_name_raises_without_file :
  TeacherMaterial.name Examples.stored Examples.stored_path Examples.no_file
  = Raise ValueError.
Proof. reflexivity. Qed.

(** ** Blocking *)

Lemma block_run salt self w :
  Teacher.block salt self w =
  (Ok (Teacher.set_user self
         (Teacher.set_unusable_password salt (Teacher.set_is_active false (t_user self)))),
   mk_world (clock w) (today w) (cache w)
     (<[user_pk (t_user self) :=
          Teacher.set_unusable_password salt (Teacher.set_is_active false (t_user self))]>
        (users w))
     (groups w) (user_groups w) (languages w) (teachers w) (additional_languages w)
     (salary_profiles w) (user_tests w) (lessons w) (courses w)
     (Teacher.make_unavailable self (free_times w))
     (Teacher.make_unavailable self (free_time_templates w))
     (outbox w) (sent_signals w ++ [t_pk self])).
Proof. reflexivity. Qed.

Lemma make_unavailable_idem self self' rows :
  t_pk self' = t_pk self →
  Teacher.make_unavailable self' (Teacher.make_unavailable self rows)
  = Teacher.make_unavailable self rows.
Proof.
  intros Hpk. unfold Teacher.make_unavailable. rewrite List.map_map, Hpk.
  apply List.map_ext. intros r.
  destruct (ft_teacher r =? t_pk self) eqn:Ht; cbn [ft_teacher]; by rewrite Ht.
Qed.

Lemma unusable_password_is_unusable salt u :
  Teacher.has_usable_password (Teacher.set_unusable_password salt u) = false.
Proof. by destruct salt. Qed.

Lemma make_unavailable_off self rows r :
  In r (Teacher.make_unavailable self rows) →
  ft_teacher r = t_pk self → ft_available r = false.
Proof.
  unfold Teacher.make_unavailable. rewrite List.in_map_iff.
  intros (r0 & <- & _). destruct (ft_teacher r0 =? t_pk self) eqn:Ht; [done|].
  apply Z.eqb_neq in Ht. done.
Qed.

(** C7: [block] is idempotent.  A second call leaves the free-time records
    and the templates as the first call left them, all unavailable for this
    teacher, and the user inactive with an unusable password; the world
    after two calls is the world after one call, but for the random suffix
    of the unusable password (that of the last call) and the second
    [teacher_blocked] signal. *)
Theorem block_idempotent (salt1 salt2 : string) (self : teacher) (w : World) :
  ∃ self1 w1 self2 w2,
    Teacher.block salt1 self w = (Ok self1, w1)
    ∧ Teacher.block salt2 self1 w1 = (Ok self2, w2)
    ∧ free_times w2 = free_times w1
    ∧ free_time_templates w2 = free_time_templates w1
    ∧ (∀ r, In r (free_times w2) → ft_teacher r = t_pk self → ft_available r = false)
    ∧ (∀ r, In r (free_time_templates w2) → ft_teacher r = t_pk self →
            ft_available r = false)
    ∧ users w2 !! user_pk (t_user self) = Some (t_user self2)
    ∧ user_is_active (t_user self2) = false
    ∧ Teacher.has_usable_password (t_user self2) = false
    ∧ users w1 !! user_pk (t_user self) = Some (t_user self1)
    ∧ user_is_active (t_user self1) = false
    ∧ Teacher.has_usable_password (t_user self1) = false
    ∧ set_sent_signals (λ _, []) w2
      = set_sent_signals (λ _, []) (world_after (Teacher.block salt2 self w)).
Proof.
  do 4 eexists. split; [apply block_run|]. split; [apply block_run|].
  cbn [free_times free_time_templates users t_user t_pk Teacher.set_user
       Teacher.set_unusable_password Teacher.set_is_active user_pk user_is_active
       world_after snd].
  rewrite !make_unavailable_idem by reflexivity.
  split_and!; try reflexivity; try apply unusable_password_is_unusable.
  - intros r. apply make_unavailable_off.
  - intros r. apply make_unavailable_off.
  - apply lookup_insert_eq.
  - apply lookup_insert_eq.
  - rewrite block_run. cbn [snd set_sent_signals clock today cache users groups
      user_groups languages teachers additional_languages salary_profiles user_tests
      lessons courses free_times free_time_templates outbox sent_signals].
    by rewrite insert_insert_eq.
Qed.

(** ** Onboarding *)

Lemma bind_gets {A B} (f : World → A) (k : A → M B) w :
  (gets f ≫= k) w = k (f w) w.
Proof. reflexivity. Qed.

Lemma bind_modify {B} (f : World → World) (k : unit → M B) w :
  (modify f ≫= k) w = k tt (f w).
Proof. reflexivity. Qed.

Lemma objects_create_fresh u kw w :
  (∀ r, In r (teachers w) → user_pk (t_user r) ≠ user_pk u) →
  Teacher.objects_create u kw w =
  (Ok (mk_teacher (Teacher.next_pk (teachers w)) u None (kw_language kw)
         (kw_russian kw) (kw_native kw) (kw_language_support kw)),
   set_teachers (λ rows, rows ++
     [mk_teacher (Teacher.next_pk (teachers w)) u None (kw_language kw)
        (kw_russian kw) (kw_native kw) (kw_language_support kw)]) w).
Proof.
  intros Hfresh. unfold Teacher.objects_create.
  destruct (existsb _ _) eqn:Hex; [|done].
  apply List.existsb_exists in Hex as (r & Hin & Heq).
  apply Z.eqb_eq in Heq. by apply Hfresh in Hin.
Qed.

Lemma salary_profile_create_fresh u w :
  ¬ In (user_pk u) (salary_profiles w) →
  Teacher.salary_profile_create u w =
  (Ok tt, set_salary_profiles (λ l, l ++ [user_pk u]) w).
Proof.
  intros Hfresh. unfold Teacher.salary_profile_create.
  destruct (existsb _ _) eqn:Hex; [|done].
  apply List.existsb_exists in Hex as (p & Hin & Heq).
  apply Z.eqb_eq in Heq. by subst.
Qed.

(** Attaching languages changes the attached languages and nothing else. *)
Lemma for_each_add self pks w :
  ∃ g, for_each (Teacher.additional_languages_add self) pks w
       = (Ok tt, set_additional_languages g w).
Proof.
  revert w. induction pks as [|pk pks IH]; intros w.
  - exists (λ s, s). by destruct w.
  - cbn [for_each]. rewrite bind_run.
    change (Teacher.additional_languages_add self pk w)
      with (Ok tt, set_additional_languages (λ s, s ∪ {[(t_pk self, pk)]}) w).
    cbv beta iota.
    destruct (IH (set_additional_languages (λ s, s ∪ {[(t_pk self, pk)]}) w))
      as [g Hg].
    rewrite Hg. by exists (λ s, g (s ∪ {[(t_pk self, pk)]})).
Qed.

Lemma assign_tests_run self w due :
  add_one_month (today w) = Ok due →
  Teacher._assign_tests self w =
  (Ok tt, set_user_tests (λ l, l ++ [mk_user_test (user_pk (t_user self)) "webinar1" due;
                                      mk_user_test (user_pk (t_user self)) "webinar2" due]) w).
Proof.
  intros Hdue. unfold Teacher._assign_tests. rewrite bind_gets, bind_run.
  unfold lift. rewrite Hdue. unfold Teacher.create_test.
  rewrite bind_modify. unfold modify, set_user_tests. cbn.
  by rewrite <- List.app_assoc.
Qed.

Lemma group_get_or_create_run name_ w :
  Teacher.group_get_or_create name_ w = (Ok name_, set_groups (λ g, g ∪ {[ name_ ]}) w).
Proof. reflexivity. Qed.

(** C3: onboarding a fresh user with the russian-market flag set creates
    exactly one salary profile, for this user; puts the user into the group
    "Helpdesk support", which exists afterwards; creates exactly two test
    assignments, webinar1 and webinar2, both due one calendar month from
    today; and sends the greeting email, unless the caller has suppressed
    it, in which case no mail is sent. *)
Theorem create_onboards
    (in_case : language → string → string)
    (render_to_string : string → email_context → string)
    (u : user) (password : string) (kwargs : create_kwargs) (w : World) (due : date) :
  fresh_user u w →
  kw_russian kwargs = true →
  add_one_month (today w) = Ok due →
  ∃ t w',
    Teacher.create in_case render_to_string u password kwargs w = (Ok t, w')
    ∧ t_user t = u
    ∧ salary_profiles w' = salary_profiles w ++ [user_pk u]
    ∧ groups w' = groups w ∪ {[ "Helpdesk support" ]}
    ∧ user_groups w' = user_groups w ∪ {[ (user_pk u, "Helpdesk support") ]}
    ∧ user_tests w'
      = user_tests w ++ [mk_user_test (user_pk u) "webinar1" due;
                         mk_user_test (user_pk u) "webinar2" due]
    ∧ outbox w'
      = outbox w ++
        match kw_send_greeting_email kwargs with
        | Some false => []
        | _ =>
            [mk_mail (user_pk u) "Access to teacher's dashboard"
               (render_to_string "manager/create_teacher_email.html"
                  (mk_email_context (user_first_name u) password t (t_native t)))]
        end.
Proof.
  intros [Hteacher Hprofile] Hrussian Hdue.
  unfold Teacher.create.
  rewrite bind_run, (objects_create_fresh _ _ _ Hteacher).
  set (t0 := mk_teacher _ _ _ _ _ _ _). set (w1 := set_teachers _ w).
  rewrite bind_gets.
  set (t1 := Teacher.set_position t0 _).
  unfold Teacher.save. rewrite bind_modify.
  set (w2 := set_teachers _ w1).
  rewrite bind_run.
  destruct (for_each_add t1 (default [] (kw_additional_languages kwargs)) w2)
    as [g Hg].
  rewrite Hg.
  rewrite bind_run, salary_profile_create_fresh by exact Hprofile.
  rewrite bind_run, group_get_or_create_run.
  unfold Teacher.user_groups_add. rewrite bind_modify.
  change (t_russian t1) with (kw_russian kwargs). rewrite Hrussian.
  rewrite bind_run, (assign_tests_run _ _ due) by exact Hdue.
  exists t1.
  destruct (kw_send_greeting_email kwargs) as [[|]|]; cbn [default];
    (eexists; split; [reflexivity|]; split_and!; try reflexivity).
  all: cbn; by rewrite <- ?List.app_assoc, ?app_nil_r.
Qed.

Lemma create_onboards_witness :
  ∃ t w',
    Teacher.create Examples.in_case Examples.render_to_string Examples.anna "secret"
      Examples.onboarding Examples.empty_world = (Ok t, w')
    ∧ salary_profiles w' = [5]
    ∧ user_tests w' = [mk_user_test 5 "webinar1" (mk_date 2024 2 29);
                       mk_user_test 5 "webinar2" (mk_date 2024 2 29)].
Proof.
  destruct (create_onboards Examples.in_case Examples.render_to_string Examples.anna
              "secret" Examples.onboarding Examples.empty_world (mk_date 2024 2 29))
    as (t & w' & Hrun & _ & Hsp & _ & _ & Hut & _).
  - split; [intros r [] | intros []].
  - reflexivity.
  - reflexivity.
  - exists t, w'. split; [exact Hrun|]. split; [exact Hsp | exact Hut].
Defined.

(** ** The position *)

Lemma prefix_app sub rest : String.prefix sub (sub +:+ rest) = true.
Proof.
  induction sub as [|c sub IH].
  - by destruct rest.
  - change (String.prefix (String c sub) (String c (sub +:+ rest)) = true).
    cbn [String.prefix].
    destruct (ascii_dec c c) as [_ | Hne]; [exact IH | by destruct Hne].
Qed.

Lemma contains_prefix sub s : String.prefix sub s = true → contains sub s = true.
Proof. intros H. destruct s; cbn [contains]; by rewrite H. Qed.

Lemma contains_app sub a rest : contains sub (a +:+ sub +:+ rest) = true.
Proof.
  induction a as [|c a IH].
  - change (contains sub (sub +:+ rest) = true). apply contains_prefix, prefix_app.
  - change (contains sub (String c (a +:+ sub +:+ rest)) = true).
    cbn [contains]. rewrite IH. apply orb_true_r.
Qed.

(** A list of parts free of the separator has the separator in its join
    exactly when it has more than one part. *)
Lemma contains_join (parts : list string) :
  (∀ x, In x parts → contains ", " x = false) →
  contains ", " (join ", " parts) = (1 <? Z.of_nat (length parts)).
Proof.
  intros Hfree. destruct parts as [|x [|y rest]].
  - reflexivity.
  - cbn [join]. rewrite Hfree by (by left). reflexivity.
  - cbn [join]. rewrite contains_app. symmetry. apply Z.ltb_lt.
    cbn [length]. lia.
Qed.

(** The part of C4 that holds: with an inflection that puts no ", " into a
    name, [generate_position] is "Преподаватель", the genitive names of the
    languages whose code the teacher has, joined by ", ", then "языков" when
    they are more than one and "языка" otherwise, then ", носитель" for a
    native speaker. *)
Lemma generate_position_form (in_case : language → string → string) self w :
  (∀ l, contains ", " (in_case l "gent") = false) →
  Teacher.generate_position in_case self w =
  "Преподаватель "
  +:+ join ", " (map (λ l, in_case l "gent")
                   (Teacher.languages_with_code_in (Teacher.all_languages_codes self w) w))
  +:+ " язык"
  +:+ (if 1 <? Z.of_nat (length (Teacher.languages_with_code_in
                                   (Teacher.all_languages_codes self w) w))
       then "ов" else "а")
  +:+ (if t_native self then ", носитель" else "").
Proof.
  intros Hfree. unfold Teacher.generate_position.
  rewrite contains_join, length_map; [done|].
  intros x Hx. apply List.in_map_iff in Hx as (l & <- & _). apply Hfree.
Qed.

(** C4, where the code departs from it: [Teacher.create] generates the
    position before it attaches the additional languages.  Onboarding a
    teacher of English with French as an additional language stores
    "Преподаватель английского языка", while [generate_position] on the
    teacher just created gives "Преподаватель английского, французского
    языков". *)
Theorem create_position_misses_additional_languages :
  ∃ t w',
    Teacher.create Examples.in_case Examples.render_to_string Examples.anna "secret"
      Examples.onboarding_two_languages Examples.empty_world = (Ok t, w')
    ∧ t_position t = Some "Преподаватель английского языка"
    ∧ Teacher.generate_position Examples.in_case t w'
      = "Преподаватель английского, французского языков"
    ∧ Some (Teacher.generate_position Examples.in_case t w') ≠ t_position t.
Proof.
  eexists _, _. split; [by vm_compute|]. by vm_compute.
Qed.

(** * Further properties *)

(** ** The cache keys of the metrics *)

Lemma append_inj_r (p s1 s2 : string) : p +:+ s1 = p +:+ s2 → s1 = s2.
Proof.
  induction p as [|c p IH]; [done|].
  change (String c (p +:+ s1) = String c (p +:+ s2) → s1 = s2).
  intros [= H]. by apply IH.
Qed.

(** X2: the cache keys tell teachers and metrics apart: two teachers share
    the key of a metric only if they have the same primary key, and the key
    of one metric is never the key of the other, whoever the teachers. *)
Theorem metric_cache_keys_distinct (t1 t2 : teacher) :
  (Teacher.finished_demo_lessons_key t1 = Teacher.finished_demo_lessons_key t2
   ↔ t_pk t1 = t_pk t2)
  ∧ (Teacher.paid_after_demo_key t1 = Teacher.paid_after_demo_key t2
     ↔ t_pk t1 = t_pk t2)
  ∧ Teacher.finished_demo_lessons_key t1 ≠ Teacher.paid_after_demo_key t2.
Proof.
  unfold Teacher.finished_demo_lessons_key, Teacher.paid_after_demo_key.
  split_and!.
  - split; [|by intros ->].
    intros H. apply append_inj_r in H. by apply (inj pretty) in H.
  - split; [|by intros ->].
    intros H. apply append_inj_r in H. by apply (inj pretty) in H.
  - change (String "F" ("INISHED_DEMO__" +:+ pretty (t_pk t1))
            ≠ String "P" ("AID_AFTER_DEMO__" +:+ pretty (t_pk t2))).
    discriminate.
Qed.

Lemma metric_keys_differ self :
  Teacher.finished_demo_lessons_key self ≠ Teacher.paid_after_demo_key self.
Proof.
  unfold Teacher.finished_demo_lessons_key, Teacher.paid_after_demo_key.
  change (String "F" ("INISHED_DEMO__" +:+ pretty (t_pk self))
          ≠ String "P" ("AID_AFTER_DEMO__" +:+ pretty (t_pk self))).
  discriminate.
Qed.

(** ** What the metrics write *)

(** A cached read changes the cache under its own key at most. *)
Lemma cached_frame key timeout (f : World → Z) w :
  ∃ v g, cached key timeout (gets f) w = (Ok v, set_cache g w)
         ∧ ∀ c k, k ≠ key → g c !! k = c !! k.
Proof.
  rewrite cached_gets.
  destruct (cache w !! key) as [[v expiry]|].
  - destruct (clock w <? expiry).
    + exists v, (λ c, c). split; [by destruct w | done].
    + eexists _, _. split; [done|]. intros c k Hk. by rewrite lookup_insert_ne.
  - eexists _, _. split; [done|]. intros c k Hk. by rewrite lookup_insert_ne.
Qed.

(** X3: [conversion], whether it returns or raises, writes nothing but the
    cache, and in the cache only the two keys of this teacher: every table
    and every other cache entry is as before. *)
Theorem conversion_writes_only_its_cache_keys (self : teacher) (w : World) :
  ∃ g, world_after (Teacher.conversion self w) = set_cache g w
       ∧ ∀ k, k ≠ Teacher.finished_demo_lessons_key self →
              k ≠ Teacher.paid_after_demo_key self →
              cache (set_cache g w) !! k = cache w !! k.
Proof.
  unfold Teacher.conversion. rewrite bind_run.
  unfold Teacher.finished_demo_lessons.
  destruct (cached_frame (Teacher.finished_demo_lessons_key self) (days2sec 1)
              (λ w, Z.of_nat (length (Teacher._finished_demo_lessons self w))) w)
    as (d & g & -> & Hg).
  destruct (d <? Teacher.DEMOS_MIN).
  { exists g. split; [done|]. intros k Hk _. by apply Hg. }
  rewrite bind_run. unfold Teacher.paid_after_demo.
  destruct (cached_frame (Teacher.paid_after_demo_key self) (days2sec 1)
              (Teacher.paid_after_demo_body self) (set_cache g w))
    as (p & g' & -> & Hg').
  exists (λ c, g' (g c)). split.
  - rewrite bind_run. unfold lift.
    destruct (Float.truediv p d); [|done]. by destruct (Float.round2 a).
  - intros k Hk1 Hk2. cbn [cache set_cache]. rewrite Hg' by done. by apply Hg.
Qed.

(** ** Paid after demo against finished demos *)

Lemma paid_body_le_finished self w :
  0 <= Teacher.paid_after_demo_body self w
  <= Z.of_nat (length (Teacher._finished_demo_lessons self w)).
Proof.
  rewrite paid_after_demo_body_count.
  pose proof (List.filter_length_le (Teacher.paid_course_exists w)
                (Teacher._finished_demo_lessons self w)). lia.
Qed.

(** With both metrics out of the cache, [conversion] reads the two counts
    off the tables. *)
Lemma fresh_metrics self w :
  metrics_not_cached self w →
  ∃ w1 w2,
    Teacher.finished_demo_lessons self w
    = (Ok (Z.of_nat (length (Teacher._finished_demo_lessons self w))), w1)
    ∧ Teacher.paid_after_demo self w1 = (Ok (Teacher.paid_after_demo_body self w), w2).
Proof.
  intros [Hf Hp]. unfold Teacher.finished_demo_lessons, Teacher.paid_after_demo.
  rewrite (cached_miss _ _ _ _ Hf). eexists _, _. split; [done|].
  rewrite cached_miss; [done|].
  unfold cache_miss in *. cbn [cache set_cache clock].
  rewrite lookup_insert_ne by apply metric_keys_differ. exact Hp.
Qed.

(** X1: read fresh, the paid-after-demo count of a teacher is never
    negative and never above the finished-demo-lesson count. *)
Theorem paid_after_demo_at_most_finished_demos
    (self : teacher) (w w1 w2 : World) (d p : Z) :
  metrics_not_cached self w →
  Teacher.finished_demo_lessons self w = (Ok d, w1) →
  Teacher.paid_after_demo self w1 = (Ok p, w2) →
  0 <= p <= d.
Proof.
  intros Hfresh Hd Hp.
  destruct (fresh_metrics self w Hfresh) as (w1' & w2' & Hd' & Hp').
  rewrite Hd' in Hd. injection Hd as <- <-.
  rewrite Hp' in Hp. injection Hp as <- _.
  apply paid_body_le_finished.
Qed.

Lemma paid_after_demo_at_most_finished_demos_witness :
  0 <= 3 <= 10.
Proof.
  pose (w1 := world_after (Teacher.finished_demo_lessons Examples.anna_teacher
                             Examples.ten_demos)).
  pose (w2 := world_after (Teacher.paid_after_demo Examples.anna_teacher w1)).
  apply (paid_after_demo_at_most_finished_demos Examples.anna_teacher
           Examples.ten_demos w1 w2 10 3).
  - split; by vm_compute.
  - by vm_compute.
  - by vm_compute.
Defined.

(** ** Conversion is a rate *)

Module FloatOrderFacts.
Import Float FloatFacts.

(** A float with a negative exponent whose significand is at most
    [2^-expo] is at most 1.0. *)
Lemma leb_one x :
  expo x < 0 → 0 <= mant x <= 2 ^ (- expo x) → FloatOrder.leb x one = true.
Proof.
  intros He Hm. unfold FloatOrder.leb. cbn [mant expo one]. apply Z.leb_le.
  destruct (Z.min_spec (expo x) (-52)) as [[Hlt ->] | [Hge ->]].
  - replace (expo x - expo x) with 0 by lia. rewrite Z.pow_0_r, Z.mul_1_r.
    apply Z.le_trans with (2 ^ (- expo x)); [lia|].
    rewrite <- Z.pow_add_r by lia. apply Z.pow_le_mono_r; lia.
  - replace (-52 - -52) with 0 by lia. rewrite Z.pow_0_r, Z.mul_1_r.
    apply Z.le_trans with (2 ^ (- expo x) * 2 ^ (expo x - -52)).
    + apply Z.mul_le_mono_nonneg_r; [apply Z.lt_le_incl, pow2_pos; lia | lia].
    + rewrite <- Z.pow_add_r by lia. apply Z.pow_le_mono_r; lia.
Qed.

Lemma zero_leb x : 0 <= mant x → FloatOrder.leb zero x = true.
Proof.
  intros Hm. unfold FloatOrder.leb. cbn [mant expo zero]. apply Z.leb_le.
  rewrite Z.mul_0_l. apply Z.mul_nonneg_nonneg; [done|].
  apply Z.lt_le_incl, pow2_pos. lia.
Qed.

(** The float of a quotient that is at most one is zero, or has a negative
    exponent and a significand of at most [2^-expo]. *)
Lemma nearest_at_most_one n d x :
  0 <= n <= d → 0 < d → nearest n d = Some x →
  x = zero ∨ (expo x < 0 ∧ 0 < mant x <= 2 ^ (- expo x)).
Proof.
  intros Hn Hd Hx.
  destruct (Z.eq_dec n 0) as [-> | Hn0].
  { rewrite nearest_zero in Hx. left. by injection Hx. }
  assert (Hdec : x = zero ∨ x ≠ zero).
  { destruct x as [m e]. unfold zero.
    destruct (Z.eq_dec m 0) as [-> | Hm]; [|right; congruence].
    destruct (Z.eq_dec e 0) as [-> | He]; [by left | right; congruence]. }
  destruct Hdec as [Hz | Hnz]; [by left | right].
  destruct (nearest_spec n d x ltac:(lia) Hd Hx Hnz)
    as (Hnear & _ & Hm & He & Hnorm).
  assert (Hemin : emin = -1074) by done.
  unfold scaled_num, scaled_den in Hnear.
  destruct (0 <=? expo x) eqn:Hs.
  - exfalso. apply Z.leb_le in Hs.
    assert (Hp : 1 <= 2 ^ expo x) by (pose proof (pow2_pos (expo x) Hs); lia).
    assert (H52 : 2 ^ 52 <= mant x) by (apply Hnorm; lia).
    assert (4 <= 2 ^ 52) by done.
    nia.
  - apply Z.leb_gt in Hs. split; [done|]. split; [lia|].
    assert (Hp : 0 < 2 ^ (- expo x)) by (apply pow2_pos; lia).
    nia.
Qed.

Lemma hundredths_at_most_100 x :
  expo x < 0 → 0 <= mant x <= 2 ^ (- expo x) → 0 <= hundredths x <= 100.
Proof.
  intros He Hm. unfold hundredths.
  assert (Hs : (0 <=? expo x) = false) by (apply Z.leb_gt; lia). rewrite Hs.
  assert (Hp : 0 < 2 ^ (- expo x)) by (apply pow2_pos; lia).
  pose proof (Z.mod_pos_bound (100 * mant x) (2 ^ (- expo x)) Hp) as Hr.
  pose proof (Z.div_mod (100 * mant x) (2 ^ (- expo x)) ltac:(lia)) as Hdm.
  assert (Hq0 : 0 <= 100 * mant x / 2 ^ (- expo x)) by (apply Z.div_pos; lia).
  unfold half_even.
  destruct (2 ^ (- expo x) <? 2 * ((100 * mant x) mod 2 ^ (- expo x))) eqn:H1;
    [apply Z.ltb_lt in H1 | apply Z.ltb_ge in H1]; cbn [orb].
  - nia.
  - destruct (2 * ((100 * mant x) mod 2 ^ (- expo x)) =? 2 ^ (- expo x)) eqn:H2;
      [apply Z.eqb_eq in H2 | apply Z.eqb_neq in H2]; cbn [andb];
      [destruct (Z.odd _)|]; nia.
Qed.

(** A quotient of at most one, rounded to two decimals, is a float between
    0.0 and 1.0. *)
Lemma round2_truediv_at_most_one p d :
  0 <= p <= d → 0 < d → d < 2 ^ 63 →
  ∃ q y, truediv p d = Ok q ∧ round2 q = Ok y
         ∧ FloatOrder.leb zero y = true ∧ FloatOrder.leb y one = true.
Proof.
  intros Hp Hd Hbig.
  destruct (round2_truediv_ok p d ltac:(lia) Hd) as (q & y & Hq & Hy).
  exists q, y. split; [done|]. split; [done|].
  unfold truediv in Hq. destruct (d =? 0); [done|].
  destruct (nearest p d) as [q'|] eqn:Hn; [|done]. injection Hq as ->.
  assert (Hh : 0 <= hundredths q <= 100).
  { destruct (nearest_at_most_one p d q Hp Hd Hn) as [-> | [He Hm]]; [done|].
    apply hundredths_at_most_100; [done | lia]. }
  unfold round2 in Hy. destruct (nearest (hundredths q) 100) as [y'|] eqn:Hn2; [|done].
  injection Hy as ->.
  destruct (nearest_at_most_one (hundredths q) 100 y Hh ltac:(lia) Hn2)
    as [-> | [He Hm]]; [done|].
  split; [apply zero_leb; lia | apply leb_one; [done | lia]].
Qed.

End FloatOrderFacts.

(** X4: computed from fresh counts, [conversion] is a rate: it returns a
    float, and the float lies between 0.0 and 1.0. *)
Theorem conversion_is_a_rate (self : teacher) (w : World) :
  metrics_not_cached self w →
  Z.of_nat (length (lessons w)) < 2 ^ 63 →
  ∃ x, value (Teacher.conversion self w) = Ok x
       ∧ FloatOrder.leb Float.zero x = true
       ∧ FloatOrder.leb x Float.one = true.
Proof.
  intros Hfresh Hrows.
  destruct (fresh_metrics self w Hfresh) as (w1 & w2 & Hd & Hp).
  unfold Teacher.conversion. rewrite bind_run, Hd.
  destruct (_ <? Teacher.DEMOS_MIN) eqn:Hlt; [by exists Float.one|].
  apply Z.ltb_ge in Hlt. unfold Teacher.DEMOS_MIN in Hlt.
  rewrite bind_run, Hp, bind_run. unfold lift.
  pose proof (paid_body_le_finished self w) as Hle.
  pose proof (finished_demo_lessons_le self w) as Hlen.
  destruct (FloatOrderFacts.round2_truediv_at_most_one
              (Teacher.paid_after_demo_body self w)
              (Z.of_nat (length (Teacher._finished_demo_lessons self w))))
    as (q & y & -> & Hy & H0 & H1); [done | lia | lia |].
  exists y. by rewrite Hy.
Qed.

Lemma conversion_is_a_rate_witness :
  ∃ x, value (Teacher.conversion Examples.anna_teacher Examples.ten_demos) = Ok x
       ∧ FloatOrder.leb Float.zero x = true
       ∧ FloatOrder.leb x Float.one = true.
Proof.
  apply conversion_is_a_rate.
  - split; by vm_compute.
  - by vm_compute.
Defined.

(** ** The teachers of a language *)

Lemma all_languages_codes_attached self w c :
  c ∈ Teacher.all_languages_codes self w ↔
  c = lang_code (t_language self)
  ∨ ∃ l, In l (Teacher.additional_languages_all self w) ∧ lang_code l = c.
Proof.
  unfold Teacher.all_languages_codes.
  by rewrite elem_of_union, elem_of_singleton, elem_of_list_to_set_map.
Qed.

Lemma for_language_In (language_code : string) (w : World) (t : teacher) :
  In t (TeacherManager.for_language language_code w) ↔
  In t (ActiveManager.get_queryset w)
  ∧ language_code ∈ Teacher.all_languages_codes t w.
Proof.
  unfold TeacherManager.for_language. rewrite List.in_flat_map.
  rewrite all_languages_codes_attached.
  split.
  - intros (t0 & Hq & Hin).
    destruct (Teacher.additional_languages_all t0 w) as [|l0 ls] eqn:Hatt.
    + case_bool_decide as Hown; [|done].
      destruct Hin as [<- | []]. split; [done|]. left. by symmetry in Hown.
    + apply List.in_flat_map in Hin as (l & Hl & Hin).
      destruct (bool_decide (lang_code (t_language t0) = language_code)
                || bool_decide (lang_code l = language_code)) eqn:Hc; [|done].
      destruct Hin as [<- | []]. split; [done|].
      apply orb_true_iff in Hc as [Hc | Hc]; apply bool_decide_eq_true in Hc.
      * by left.
      * right. exists l. by rewrite Hatt.
  - intros (Hq & Hcode). exists t. split; [done|].
    destruct (Teacher.additional_languages_all t w) as [|l0 ls] eqn:Hatt.
    + destruct Hcode as [-> | (l & [] & _)].
      rewrite bool_decide_eq_true_2 by done. by left.
    + apply List.in_flat_map. destruct Hcode as [-> | (l & Hl & <-)].
      * exists l0. split; [by left|].
        rewrite bool_decide_eq_true_2 by done. by left.
      * exists l. split; [done|].
        rewrite (bool_decide_eq_true_2 (lang_code l = lang_code l)) by done.
        rewrite orb_true_r. by left.
Qed.

(** X5: [for_language(code)] finds exactly the active teachers that have the
    code among their language codes: a teacher is in the result if and only
    if the account of its user is active and [all_languages_codes] of the
    teacher holds the code. *)
Theorem for_language_finds_teachers_of_the_language
    (language_code : string) (w : World) (t : teacher) :
  In t (TeacherManager.for_language language_code w) ↔
  In t (ActiveManager.get_queryset w)
  ∧ language_code ∈ Teacher.all_languages_codes t w.
Proof. apply for_language_In. Qed.

(** ** What blocking changes and what it leaves *)

Lemma make_unavailable_others self rows :
  List.filter (λ r, negb (ft_teacher r =? t_pk self)) (Teacher.make_unavailable self rows)
  = List.filter (λ r, negb (ft_teacher r =? t_pk self)) rows.
Proof.
  unfold Teacher.make_unavailable.
  induction rows as [|r rows IH]; [done|].
  cbn [map List.filter]. destruct (ft_teacher r =? t_pk self) eqn:Ht.
  - cbn [ft_teacher]. rewrite Ht. cbn [negb]. exact IH.
  - rewrite Ht. cbn [negb]. by rewrite IH.
Qed.

(** X6: [block] touches only what belongs to the blocked teacher.  The
    free-time records and templates of other teachers are the same rows in
    the same order and no row is added or removed; every other user account
    is as before; lessons, courses, teachers, languages, salary profiles,
    test assignments, groups, the cache and the mail queue are unchanged;
    and exactly one [teacher_blocked] signal is sent, for this teacher. *)
Theorem block_touches_only_its_own (salt : string) (self : teacher) (w : World) :
  let w' := world_after (Teacher.block salt self w) in
  List.filter (λ r, negb (ft_teacher r =? t_pk self)) (free_times w')
  = List.filter (λ r, negb (ft_teacher r =? t_pk self)) (free_times w)
  ∧ List.filter (λ r, negb (ft_teacher r =? t_pk self)) (free_time_templates w')
    = List.filter (λ r, negb (ft_teacher r =? t_pk self)) (free_time_templates w)
  ∧ length (free_times w') = length (free_times w)
  ∧ length (free_time_templates w') = length (free_time_templates w)
  ∧ (∀ k, k ≠ user_pk (t_user self) → users w' !! k = users w !! k)
  ∧ sent_signals w' = sent_signals w ++ [t_pk self]
  ∧ (lessons w', courses w', teachers w', languages w', additional_languages w')
    = (lessons w, courses w, teachers w, languages w, additional_languages w)
  ∧ (salary_profiles w', user_tests w', groups w', user_groups w', cache w', outbox w')
    = (salary_profiles w, user_tests w, groups w, user_groups w, cache w, outbox w)
  ∧ TeacherQueries.has_unfinished_lessons self w'
    = TeacherQueries.has_unfinished_lessons self w.
Proof.
  intros w'. subst w'. rewrite block_run. cbn [world_after snd].
  cbn [free_times free_time_templates users sent_signals lessons courses teachers
       languages additional_languages salary_profiles user_tests groups user_groups
       cache outbox].
  split_and!; try reflexivity.
  - apply make_unavailable_others.
  - apply make_unavailable_others.
  - unfold Teacher.make_unavailable. apply length_map.
  - unfold Teacher.make_unavailable. apply length_map.
  - intros k Hk. by rewrite lookup_insert_ne.
Qed.

(** X7: blocking takes the teacher out of the active teachers and leaves the
    others in: after [block], the active teachers are those that were active
    before and belong to another user; so no [for_language] query finds a
    teacher of the blocked user any more. *)
Theorem block_removes_from_active (salt : string) (self : teacher) (w : World) :
  let w' := world_after (Teacher.block salt self w) in
  ActiveManager.get_queryset w'
  = List.filter (λ t, negb (user_pk (t_user t) =? user_pk (t_user self)))
      (ActiveManager.get_queryset w)
  ∧ ∀ language_code t,
      In t (TeacherManager.for_language language_code w') →
      user_pk (t_user t) ≠ user_pk (t_user self).
Proof.
  intros w'.
  assert (Hq : ActiveManager.get_queryset w'
    = List.filter (λ t, negb (user_pk (t_user t) =? user_pk (t_user self)))
        (ActiveManager.get_queryset w)).
  { subst w'. rewrite block_run. cbn [world_after snd].
    unfold ActiveManager.get_queryset. cbn [users teachers].
    induction (teachers w) as [|t ts IH]; [done|].
    cbn [List.filter]. rewrite IH.
    destruct (Z.eq_dec (user_pk (t_user t)) (user_pk (t_user self))) as [Heq | Hne].
    - rewrite Heq, lookup_insert_eq. cbn [user_is_active Teacher.set_unusable_password
        Teacher.set_is_active].
      destruct (users w !! user_pk (t_user self)) as [u|]; [|done].
      destruct (user_is_active u); [|done].
      cbn [List.filter]. by rewrite Heq, Z.eqb_refl.
    - rewrite lookup_insert_ne by done.
      destruct (users w !! user_pk (t_user t)) as [u|]; [|done].
      destruct (user_is_active u); [|done].
      cbn [List.filter]. apply Z.eqb_neq in Hne. by rewrite Hne. }
  split; [exact Hq|].
  intros language_code t Hin.
  apply for_language_In in Hin as [Hin _].
  rewrite Hq in Hin. apply List.filter_In in Hin as [_ Hne].
  apply negb_true_iff, Z.eqb_neq in Hne. exact Hne.
Qed.

(** ** The basic materials of a russian-market teacher *)

Section BasicMaterials.

Variable set_order : gset string → list string.
Variable str_upper : string → string.
Variable BASE_DIR : string.
Variable os_path_exists : string → bool.
Variable os_listdir : string → result (list string).
Variable re_match : string → string → bool.
Variable get_full_url : string → list string → string.
Variable signing_dumps : Z → string → string → string.

Local Abbreviation directory code :=
  (os_path_join BASE_DIR ["materials/courses/templates/ru"; code]).

Local Abbreviation loop :=
  (Teacher.basic_materials_loop BASE_DIR os_path_exists os_listdir re_match
     get_full_url signing_dumps).

(** With every existing directory listable, the loop returns what it was
    given followed by the matching files of the existing directories. *)
Lemma basic_materials_loop_ok self codes acc :
  (∀ code, In code codes → os_path_exists (directory code) = true →
           ∃ files, os_listdir (directory code) = Ok files) →
  ∃ res, loop self codes acc = Ok res
         ∧ ∀ m, In m res ↔
                In m acc
                ∨ ∃ code f files,
                    In code codes ∧ os_path_exists (directory code) = true
                    ∧ os_listdir (directory code) = Ok files ∧ In f files
                    ∧ re_match "module\d+(_theory|)\.pdf" f = true
                    ∧ m = mk_material code f
                            (get_full_url "teacher_material_template" ["ru"; code; f]
                             +:+ "?sign="
                             +:+ signing_dumps (user_pk (t_user self)) f code).
Proof.
  revert acc. induction codes as [|code codes IH]; intros acc Hlist.
  - exists acc. split; [done|]. intros m. split; [by left|].
    intros [H | (? & ? & ? & [] & _)]. done.
  - cbn [Teacher.basic_materials_loop].
    destruct (os_path_exists (directory code)) eqn:Hex; cbn [negb].
    + destruct (Hlist code ltac:(by left) Hex) as [files Hfiles]. rewrite Hfiles.
      match goal with |- context [Teacher.basic_materials_loop _ _ _ _ _ _ _ _ ?a] =>
        destruct (IH a) as (res & Hres & Hin) end.
      { intros c Hc. apply Hlist. by right. }
      exists res. split; [exact Hres|]. intros m. rewrite Hin, List.in_app_iff,
        List.in_map_iff. split.
      * intros [[H | (f & <- & Hf)] | (c & f & fs & Hc & H)].
        -- by left.
        -- apply List.filter_In in Hf as [Hf Hm]. right.
           exists code, f, files. split_and!; try done. by left.
        -- right. exists c, f, fs. split; [by right | done].
      * intros [H | (c & f & fs & [<- | Hc] & Hex' & Hfs & Hf & Hm & ->)].
        -- left. by left.
        -- left. right. exists f. split; [done|]. apply List.filter_In.
           rewrite Hfiles in Hfs. injection Hfs as <-. done.
        -- right. exists c, f, fs. done.
    + destruct (IH acc) as (res & Hres & Hin).
      { intros c Hc. apply Hlist. by right. }
      exists res. split; [exact Hres|]. intros m. rewrite Hin. split.
      * intros [H | (c & f & fs & Hc & H)]; [by left | right].
        exists c, f, fs. split; [by right | done].
      * intros [H | (c & f & fs & [<- | Hc] & Hex' & H)]; [by left | congruence | right].
        exists c, f, fs. done.
Qed.


Lemma directory_codes_In self w code :
  lists_elements set_order →
  In code (flat_map (λ c, [str_upper c +:+ "-BASIC-S"; str_upper c +:+ "-BASIC-N"])
             (set_order (Teacher.all_languages_codes self w))) ↔
  ∃ c suffix, c ∈ Teacher.all_languages_codes self w
              ∧ (suffix = "-BASIC-S" ∨ suffix = "-BASIC-N")
              ∧ code = str_upper c +:+ suffix.
Proof.
  intros Horder. rewrite List.in_flat_map. split.
  - intros (c & Hc & Hin). apply Horder in Hc.
    destruct Hin as [<- | [<- | []]];
      [exists c, "-BASIC-S" | exists c, "-BASIC-N"]; split_and!; auto.
  - intros (c & suffix & Hc & Hs & ->). exists c. split; [by apply Horder|].
    destruct Hs as [-> | ->]; [by left | right; by left].
Qed.

(** X8: for a russian-market teacher, on a disk whose existing directories
    can be listed, [get_basic_materials] returns exactly the files that
    match the module pattern in the existing directories
    [BASE_DIR/materials/courses/templates/ru/<CODE>-BASIC-S] and [-BASIC-N]
    of the teacher's language codes; each entry carries the directory code,
    the file name, and the URL of the template view signed for this user,
    file and code.  Directories that do not exist are skipped. *)
Theorem basic_materials_are_the_matching_files (self : teacher) (w : World) :
  lists_elements set_order →
  t_russian self = true →
  (∀ path, os_path_exists path = true → ∃ files, os_listdir path = Ok files) →
  ∃ res,
    Teacher.get_basic_materials set_order str_upper BASE_DIR os_path_exists os_listdir
      re_match get_full_url signing_dumps self w = Ok res
    ∧ ∀ m, In m res ↔
        ∃ c suffix files,
          c ∈ Teacher.all_languages_codes self w
          ∧ (suffix = "-BASIC-S" ∨ suffix = "-BASIC-N")
          ∧ m_code m = str_upper c +:+ suffix
          ∧ os_path_exists
              (os_path_join BASE_DIR ["materials/courses/templates/ru"; m_code m]) = true
          ∧ os_listdir
              (os_path_join BASE_DIR ["materials/courses/templates/ru"; m_code m])
            = Ok files
          ∧ In (m_name m) files
          ∧ re_match "module\d+(_theory|)\.pdf" (m_name m) = true
          ∧ m_url m
            = get_full_url "teacher_material_template" ["ru"; m_code m; m_name m]
              +:+ "?sign="
              +:+ signing_dumps (user_pk (t_user self)) (m_name m) (m_code m).
Proof.
  intros Horder Hrussian Hlist. unfold Teacher.get_basic_materials.
  rewrite Hrussian. cbn [negb].
  match goal with |- context [Teacher.basic_materials_loop _ _ _ _ _ _ _ ?cs []] =>
    destruct (basic_materials_loop_ok self cs []) as (res & Hres & Hin) end.
  { intros code _ Hex. by apply Hlist. }
  exists res. split; [exact Hres|]. intros m. rewrite Hin. split.
  - intros [[] | (code & f & files & Hcode & Hex & Hfiles & Hf & Hm & ->)].
    apply (directory_codes_In self w code Horder) in Hcode
      as (c & suffix & Hc & Hs & ->).
    exists c, suffix, files. done.
  - intros (c & suffix & files & Hc & Hs & Hcode & Hex & Hfiles & Hf & Hm & Hurl).
    right. exists (m_code m), (m_name m), files. split_and!; try done.
    + apply (directory_codes_In self w (m_code m) Horder). by exists c, suffix.
    + destruct m as [code f url]. cbn in *. by rewrite Hurl.
Qed.


End BasicMaterials.

Lemma basic_materials_are_the_matching_files_witness :
  ∃ res,
    Teacher.get_basic_materials Examples.set_order MoreExamples.upper "/srv/app"
      MoreExamples.has_directory MoreExamples.listing MoreExamples.is_module
      MoreExamples.full_url MoreExamples.sign Examples.anna_teacher Examples.empty_world
    = Ok res
    ∧ length res = 2%nat.
Proof.
  destruct (basic_materials_are_the_matching_files Examples.set_order MoreExamples.upper
              "/srv/app" MoreExamples.has_directory MoreExamples.listing
              MoreExamples.is_module MoreExamples.full_url MoreExamples.sign
              Examples.anna_teacher Examples.empty_world)
    as (res & Hres & _).
  - exact set_order_lists_elements.
  - reflexivity.
  - intros path _. unfold MoreExamples.listing. case_bool_decide; by eexists.
  - exists res. split; [exact Hres|].
    vm_compute in Hres. injection Hres as <-. reflexivity.
Defined.


(** ** More on onboarding *)

Lemma next_pk_above rows r : In r rows → t_pk r < Teacher.next_pk rows.
Proof.
  unfold Teacher.next_pk. induction rows as [|r0 rows IH]; [done|].
  cbn [map fold_right]. intros [-> | Hin]; [lia|]. apply IH in Hin. lia.
Qed.

(** Saving the teacher just inserted replaces its row and no other. *)
Lemma save_inserted rows t0 t1 :
  t_pk t0 = Teacher.next_pk rows → t_pk t1 = t_pk t0 →
  (if existsb (λ r, t_pk r =? t_pk t1) (rows ++ [t0])
   then map (λ r, if t_pk r =? t_pk t1 then t1 else r) (rows ++ [t0])
   else (rows ++ [t0]) ++ [t1])
  = rows ++ [t1].
Proof.
  intros H0 H1.
  assert (Hex : existsb (λ r, t_pk r =? t_pk t1) (rows ++ [t0]) = true).
  { rewrite List.existsb_app. cbn [existsb]. rewrite H1, Z.eqb_refl.
    by rewrite orb_true_r. }
  rewrite Hex, List.map_app. cbn [map]. rewrite H1, Z.eqb_refl. f_equal.
  rewrite <- (List.map_id rows) at 2. apply List.map_ext_in. intros r Hr.
  apply next_pk_above in Hr.
  destruct (t_pk r =? t_pk t0) eqn:Heq; [|done]. apply Z.eqb_eq in Heq. lia.
Qed.

Lemma for_each_add_run self pks w :
  for_each (Teacher.additional_languages_add self) pks w
  = (Ok tt,
     set_additional_languages
       (λ s, s ∪ list_to_set (map (λ pk, (t_pk self, pk)) pks)) w).
Proof.
  revert w. induction pks as [|pk pks IH]; intros w.
  - destruct w. unfold set_additional_languages. cbn.
    by rewrite (right_id_L ∅ (∪)).
  - cbn [for_each]. rewrite bind_run.
    change (Teacher.additional_languages_add self pk w)
      with (Ok tt, set_additional_languages (λ s, s ∪ {[(t_pk self, pk)]}) w).
    cbv beta iota. rewrite IH. unfold set_additional_languages. cbn.
    by rewrite (assoc_L (∪)).
Qed.

Lemma objects_create_taken u kw w :
  (∃ r, In r (teachers w) ∧ user_pk (t_user r) = user_pk u) →
  Teacher.objects_create u kw w = (Raise IntegrityError, w).
Proof.
  intros (r & Hin & Heq). unfold Teacher.objects_create.
  destruct (existsb _ _) eqn:Hex; [done|].
  assert (Hex' : existsb (λ r, user_pk (t_user r) =? user_pk u) (teachers w) = true).
  { apply List.existsb_exists. exists r. split; [done|]. by apply Z.eqb_eq. }
  congruence.
Qed.


Section Onboarding.

Variable in_case : language → string → string.
Variable render_to_string : string → email_context → string.

Local Abbreviation onboarded := (onboarded in_case).

(** The run of [create] for a fresh user, table by table. *)
Lemma create_fresh u password kwargs w due :
  fresh_user u w →
  (kw_russian kwargs = true → add_one_month (today w) = Ok due) →
  ∃ w',
    Teacher.create in_case render_to_string u password kwargs w
    = (Ok (onboarded u kwargs w), w')
    ∧ teachers w' = teachers w ++ [onboarded u kwargs w]
    ∧ additional_languages w'
      = additional_languages w
        ∪ list_to_set (map (λ pk, (Teacher.next_pk (teachers w), pk))
                         (default [] (kw_additional_languages kwargs)))
    ∧ salary_profiles w' = salary_profiles w ++ [user_pk u]
    ∧ groups w' = groups w ∪ {[ "Helpdesk support" ]}
    ∧ user_groups w' = user_groups w ∪ {[ (user_pk u, "Helpdesk support") ]}
    ∧ user_tests w'
      = user_tests w ++
        (if kw_russian kwargs
         then [mk_user_test (user_pk u) "webinar1" due;
               mk_user_test (user_pk u) "webinar2" due]
         else [])
    ∧ outbox w'
      = outbox w ++
        match kw_send_greeting_email kwargs with
        | Some false => []
        | _ =>
            [mk_mail (user_pk u) "Access to teacher's dashboard"
               (render_to_string "manager/create_teacher_email.html"
                  (mk_email_context (user_first_name u) password
                     (onboarded u kwargs w) (kw_native kwargs)))]
        end
    ∧ (clock w', today w', cache w', users w', languages w')
      = (clock w, today w, cache w, users w, languages w)
    ∧ (lessons w', courses w', free_times w', free_time_templates w', sent_signals w')
      = (lessons w, courses w, free_times w, free_time_templates w, sent_signals w).
Proof.
  intros [Hteacher Hprofile] Hdue.
  unfold Teacher.create.
  rewrite bind_run, (objects_create_fresh _ _ _ Hteacher).
  set (t0 := mk_teacher _ _ _ _ _ _ _). set (w1 := set_teachers _ w).
  rewrite bind_gets.
  change (Teacher.set_position t0 (Some (Teacher.generate_position in_case t0 w1)))
    with (onboarded u kwargs w).
  set (t1 := onboarded u kwargs w).
  unfold Teacher.save. rewrite bind_modify.
  set (w2 := set_teachers _ w1).
  rewrite bind_run, for_each_add_run.
  rewrite bind_run, salary_profile_create_fresh by exact Hprofile.
  rewrite bind_run, group_get_or_create_run.
  unfold Teacher.user_groups_add. rewrite bind_modify.
  change (t_russian t1) with (kw_russian kwargs).
  assert (Hteachers : teachers w2 = teachers w ++ [t1]).
  { unfold w2, w1. cbn [teachers set_teachers]. by apply save_inserted. }
  destruct (kw_russian kwargs) eqn:Hrussian.
  - rewrite bind_run, (assign_tests_run _ _ due) by (by apply Hdue).
    destruct (kw_send_greeting_email kwargs) as [[|]|]; cbn [default];
      (eexists; split; [reflexivity|]; split_and!; try reflexivity; try exact Hteachers).
    all: cbn; by rewrite <- ?List.app_assoc, ?app_nil_r.
  - destruct (kw_send_greeting_email kwargs) as [[|]|]; cbn [default];
      (eexists; split; [reflexivity|]; split_and!; try reflexivity; try exact Hteachers).
    all: cbn; by rewrite <- ?List.app_assoc, ?app_nil_r.
Qed.

End Onboarding.

Lemma set_position_fields in_case u kwargs w :
  t_pk (onboarded in_case u kwargs w) = Teacher.next_pk (teachers w)
  ∧ t_user (onboarded in_case u kwargs w) = u
  ∧ t_language (onboarded in_case u kwargs w) = kw_language kwargs
  ∧ t_russian (onboarded in_case u kwargs w) = kw_russian kwargs
  ∧ t_native (onboarded in_case u kwargs w) = kw_native kwargs
  ∧ t_language_support (onboarded in_case u kwargs w) = kw_language_support kwargs.
Proof. done. Qed.



(** X11: after onboarding, the languages attached to the new teacher are
    exactly the languages of the table whose primary key was passed as an
    additional language (provided no attachment was left over for the new
    primary key), so the teacher's language codes are the primary code and
    the codes of those languages. *)
Theorem create_attaches_the_given_languages
    (in_case : language → string → string)
    (render_to_string : string → email_context → string)
    (u : user) (password : string) (kwargs : create_kwargs) (w : World) (due : date) :
  fresh_user u w →
  (kw_russian kwargs = true → add_one_month (today w) = Ok due) →
  (∀ pk, (Teacher.next_pk (teachers w), pk) ∉ additional_languages w) →
  ∃ t w',
    Teacher.create in_case render_to_string u password kwargs w = (Ok t, w')
    ∧ (∀ l, In l (Teacher.additional_languages_all t w') ↔
            In l (languages w)
            ∧ In (lang_pk l) (default [] (kw_additional_languages kwargs)))
    ∧ (∀ c, c ∈ Teacher.all_languages_codes t w' ↔
            c = lang_code (kw_language kwargs)
            ∨ ∃ l, In l (languages w)
                   ∧ In (lang_pk l) (default [] (kw_additional_languages kwargs))
                   ∧ lang_code l = c).
Proof.
  intros Hfresh Hdue Hstale.
  destruct (create_fresh in_case render_to_string u password kwargs w due Hfresh Hdue)
    as (w' & Hrun & _ & Hadd & _ & _ & _ & _ & _ & Hsame1 & _).
  exists (onboarded in_case u kwargs w), w'. split; [exact Hrun|].
  assert (Hlang : languages w' = languages w) by (by injection Hsame1).
  assert (Hatt : ∀ l, In l (Teacher.additional_languages_all
                              (onboarded in_case u kwargs w) w') ↔
                      In l (languages w)
                      ∧ In (lang_pk l) (default [] (kw_additional_languages kwargs))).
  { intros l. rewrite additional_languages_all_In, Hlang, Hadd.
    change (t_pk (onboarded in_case u kwargs w)) with (Teacher.next_pk (teachers w)).
    rewrite elem_of_union, elem_of_list_to_set, list_elem_of_In, List.in_map_iff.
    split.
    - intros [Hl [Hin | (pk & [= <-] & Hpk)]]; [by apply Hstale in Hin | done].
    - intros [Hl Hpk]. split; [done|]. right. by exists (lang_pk l). }
  split; [exact Hatt|].
  intros c. rewrite all_languages_codes_attached.
  change (t_language (onboarded in_case u kwargs w)) with (kw_language kwargs).
  split.
  - intros [-> | (l & Hl & <-)]; [by left | right].
    apply Hatt in Hl. exists l. tauto.
  - intros [-> | (l & Hl & Hpk & <-)]; [by left | right].
    exists l. split; [|done]. apply Hatt. tauto.
Qed.

Lemma create_attaches_the_given_languages_witness :
  ∃ t w',
    Teacher.create Examples.in_case Examples.render_to_string Examples.anna "secret"
      Examples.onboarding_two_languages Examples.empty_world = (Ok t, w')
    ∧ (In Examples.french (Teacher.additional_languages_all t w')
       ↔ In Examples.french (languages Examples.empty_world) ∧ In 2 [2]).
Proof.
  destruct (create_attaches_the_given_languages Examples.in_case
              Examples.render_to_string Examples.anna "secret"
              Examples.onboarding_two_languages Examples.empty_world (mk_date 2024 2 29))
    as (t & w' & Hrun & Hatt & _).
  - split; [intros r [] | intros []].
  - discriminate.
  - intros pk. apply not_elem_of_empty.
  - exists t, w'. split; [exact Hrun|]. apply (Hatt Examples.french).
Defined.

(** X12: onboarding without the russian-market flag assigns no tests and
    does not depend on the date: for a fresh user it succeeds with the test
    assignments unchanged, and still creates the salary profile. *)
Theorem create_without_russian_flag_assigns_no_tests
    (in_case : language → string → string)
    (render_to_string : string → email_context → string)
    (u : user) (password : string) (kwargs : create_kwargs) (w : World) :
  fresh_user u w →
  kw_russian kwargs = false →
  ∃ t w',
    Teacher.create in_case render_to_string u password kwargs w = (Ok t, w')
    ∧ user_tests w' = user_tests w
    ∧ salary_profiles w' = salary_profiles w ++ [user_pk u].
Proof.
  intros Hfresh Hrussian.
  destruct (create_fresh in_case render_to_string u password kwargs w (today w) Hfresh)
    as (w' & Hrun & _ & _ & Hsp & _ & _ & Hut & _).
  { by rewrite Hrussian. }
  exists (onboarded in_case u kwargs w), w'. split; [exact Hrun|].
  rewrite Hrussian, app_nil_r in Hut. done.
Qed.

Lemma create_without_russian_flag_assigns_no_tests_witness :
  ∃ t w',
    Teacher.create Examples.in_case Examples.render_to_string Examples.anna "secret"
      Examples.onboarding_two_languages Examples.empty_world = (Ok t, w')
    ∧ user_tests w' = []
    ∧ salary_profiles w' = [5].
Proof.
  apply (create_without_russian_flag_assigns_no_tests Examples.in_case
           Examples.render_to_string Examples.anna "secret"
           Examples.onboarding_two_languages Examples.empty_world).
  - split; [intros r [] | intros []].
  - reflexivity.
Defined.

(** X13: a user can be onboarded once.  After [create] has succeeded for a
    user, any further [create] for the same user raises [IntegrityError] at
    its first step and leaves the world as it found it: no second salary
    profile, no further tests, no mail. *)
Theorem create_twice_is_refused
    (in_case : language → string → string)
    (render_to_string : string → email_context → string)
    (u : user) (password password' : string) (kwargs kwargs' : create_kwargs)
    (w : World) (due : date) :
  fresh_user u w →
  (kw_russian kwargs = true → add_one_month (today w) = Ok due) →
  ∃ t w',
    Teacher.create in_case render_to_string u password kwargs w = (Ok t, w')
    ∧ Teacher.create in_case render_to_string u password' kwargs' w'
      = (Raise IntegrityError, w').
Proof.
  intros Hfresh Hdue.
  destruct (create_fresh in_case render_to_string u password kwargs w due Hfresh Hdue)
    as (w' & Hrun & Ht & _).
  exists (onboarded in_case u kwargs w), w'. split; [exact Hrun|].
  unfold Teacher.create. rewrite bind_run, objects_create_taken; [done|].
  exists (onboarded in_case u kwargs w). split; [|done].
  rewrite Ht. apply List.in_app_iff. right. by left.
Qed.

Lemma create_twice_is_refused_witness :
  ∃ t w',
    Teacher.create Examples.in_case Examples.render_to_string Examples.anna "secret"
      Examples.onboarding Examples.empty_world = (Ok t, w')
    ∧ Teacher.create Examples.in_case Examples.render_to_string Examples.anna "again"
        Examples.onboarding_two_languages w'
      = (Raise IntegrityError, w').
Proof.
  apply (create_twice_is_refused Examples.in_case Examples.render_to_string
           Examples.anna "secret" "again" Examples.onboarding
           Examples.onboarding_two_languages Examples.empty_world (mk_date 2024 2 29)).
  - split; [intros r [] | intros []].
  - reflexivity.
Defined.



(** ** Teachers of a single language *)

Lemma filter_unique_code (ls : list language) (p : language) :
  NoDup (map lang_code ls) → In p ls →
  List.filter (λ l, bool_decide (lang_code l ∈ ({[ lang_code p ]} : gset string))) ls
  = [p].
Proof.
  induction ls as [|a ls IH]; [done|].
  cbn [map List.filter]. intros Hnd Hin. apply NoDup_cons in Hnd as [Hnotin Hnd].
  assert (Hrest : ∀ l, In l ls → lang_code l = lang_code a → False).
  { intros l Hl Heq. apply Hnotin. rewrite <- Heq. apply list_elem_of_In.
    by apply List.in_map. }
  destruct Hin as [-> | Hin].
  - rewrite bool_decide_eq_true_2 by set_solver. f_equal.
    clear IH Hnd Hnotin. induction ls as [|b ls IH]; [done|].
    cbn [List.filter]. rewrite bool_decide_eq_false_2.
    + apply IH. intros l Hl. apply Hrest. by right.
    + rewrite elem_of_singleton. intros Heq. apply (Hrest b); [by left | done].
  - rewrite bool_decide_eq_false_2; [by apply IH|].
    rewrite elem_of_singleton. intros Heq. by apply (Hrest p).
Qed.

Lemma no_additional_languages_all self w :
  no_additional_languages self w → Teacher.additional_languages_all self w = [].
Proof.
  unfold no_additional_languages, Teacher.additional_languages_all.
  generalize (languages w). intros ls.
  induction ls as [|l ls IH]; intros Hnone; [done|].
  cbn [List.filter]. rewrite bool_decide_eq_false_2.
  - apply IH. intros l' Hl'. apply Hnone. by right.
  - apply Hnone. by left.
Qed.

Lemma single_language_rows self w :
  unique_codes w → In (t_language self) (languages w) →
  no_additional_languages self w →
  Teacher.all_languages_codes self w = {[ lang_code (t_language self) ]}
  ∧ Teacher.languages_with_code_in (Teacher.all_languages_codes self w) w
    = [t_language self].
Proof.
  intros Huniq Hin Hnone.
  assert (Hcodes : Teacher.all_languages_codes self w = {[ lang_code (t_language self) ]}).
  { unfold Teacher.all_languages_codes. rewrite no_additional_languages_all by done.
    cbn [map]. rewrite list_to_set_nil. by rewrite (right_id_L ∅ (∪)). }
  split; [exact Hcodes|]. rewrite Hcodes. unfold Teacher.languages_with_code_in.
  by apply filter_unique_code.
Qed.

(** X15: for a teacher without additional languages, in a language table
    that holds each code once, the language codes are the primary code
    alone, the contract lines name the primary language alone (its English
    name, its Czech genitive), and the position is singular: "Преподаватель
    <genitive> языка", with ", носитель" for a native speaker. *)
Theorem single_language_teacher
    (in_case : language → string → string) (self : teacher) (w : World) :
  unique_codes w →
  In (t_language self) (languages w) →
  no_additional_languages self w →
  contains ", " (in_case (t_language self) "gent") = false →
  Teacher.all_languages_codes self w = {[ lang_code (t_language self) ]}
  ∧ Teacher.languages_contract self w = lang_en_name (t_language self)
  ∧ Teacher.languages_contract_cz self w = lang_cz_gent (t_language self)
  ∧ Teacher.generate_position in_case self w
    = "Преподаватель " +:+ in_case (t_language self) "gent" +:+ " языка"
      +:+ (if t_native self then ", носитель" else "").
Proof.
  intros Huniq Hin Hnone Hcomma.
  destruct (single_language_rows self w Huniq Hin Hnone) as [Hcodes Hrows].
  split; [exact Hcodes|].
  unfold Teacher.languages_contract, Teacher.languages_contract_cz,
    Teacher.generate_position.
  rewrite Hrows. cbn [map join]. rewrite Hcomma. done.
Qed.

Lemma single_language_teacher_witness :
  Teacher.generate_position Examples.in_case Examples.anna_teacher Examples.empty_world
  = "Преподаватель английского языка".
Proof.
  destruct (single_language_teacher Examples.in_case Examples.anna_teacher
              Examples.empty_world) as (_ & _ & _ & H).
  - by apply (bool_decide_unpack _).
  - by left.
  - intros l _. apply not_elem_of_empty.
  - by vm_compute.
  - rewrite H. by vm_compute.
Defined.

(** X16: the position [create] stores comes from the primary language
    alone.  In a language table that holds each code once and holds the
    primary language, whatever additional languages are passed, the teacher
    returned has the singular position "Преподаватель <genitive of the
    primary language> языка", with ", носитель" for a native speaker. *)
Theorem create_position_comes_from_the_primary_language
    (in_case : language → string → string)
    (render_to_string : string → email_context → string)
    (u : user) (password : string) (kwargs : create_kwargs) (w : World) (due : date) :
  fresh_user u w →
  (kw_russian kwargs = true → add_one_month (today w) = Ok due) →
  unique_codes w →
  In (kw_language kwargs) (languages w) →
  (∀ pk, (Teacher.next_pk (teachers w), pk) ∉ additional_languages w) →
  contains ", " (in_case (kw_language kwargs) "gent") = false →
  ∃ t w',
    Teacher.create in_case render_to_string u password kwargs w = (Ok t, w')
    ∧ t_position t
      = Some ("Преподаватель " +:+ in_case (kw_language kwargs) "gent" +:+ " языка"
              +:+ (if kw_native kwargs then ", носитель" else "")).
Proof.
  intros Hfresh Hdue Huniq Hin Hstale Hcomma.
  destruct (create_fresh in_case render_to_string u password kwargs w due Hfresh Hdue)
    as (w' & Hrun & _).
  exists (onboarded in_case u kwargs w), w'. split; [exact Hrun|].
  unfold onboarded. cbn [t_position Teacher.set_position]. f_equal.
  set (t0 := mk_teacher _ _ _ _ _ _ _). set (w1 := set_teachers _ w).
  destruct (single_language_rows t0 w1) as [_ Hrows]; [done | done | |].
  { intros l _. apply Hstale. }
  unfold Teacher.generate_position. rewrite Hrows. cbn [map join t_language t0].
  rewrite Hcomma. done.
Qed.

Lemma create_position_comes_from_the_primary_language_witness :
  ∃ t w',
    Teacher.create Examples.in_case Examples.render_to_string Examples.anna "secret"
      Examples.onboarding_two_languages Examples.empty_world = (Ok t, w')
    ∧ t_position t = Some "Преподаватель английского языка".
Proof.
  destruct (create_position_comes_from_the_primary_language Examples.in_case
              Examples.render_to_string Examples.anna "secret"
              Examples.onboarding_two_languages Examples.empty_world (mk_date 2024 2 29))
    as (t & w' & Hrun & Hpos).
  - split; [intros r [] | intros []].
  - discriminate.
  - by apply (bool_decide_unpack _).
  - by left.
  - intros pk. apply not_elem_of_empty.
  - by vm_compute.
  - exists t, w'. split; [exact Hrun|]. rewrite Hpos. by vm_compute.
Defined.

(** X17: with an inflection that puts no ", " into a name,
    [generate_position] is "Преподаватель", then the genitive names of the
    language rows whose code the teacher has, joined by ", ", then "языков"
    when these rows are more than one and "языка" otherwise, then
    ", носитель" exactly for a native speaker. *)
Theorem generate_position_shape
    (in_case : language → string → string) (self : teacher) (w : World) :
  (∀ l, contains ", " (in_case l "gent") = false) →
  Teacher.generate_position in_case self w =
  "Преподаватель "
  +:+ join ", " (map (λ l, in_case l "gent")
                   (Teacher.languages_with_code_in (Teacher.all_languages_codes self w) w))
  +:+ " язык"
  +:+ (if 1 <? Z.of_nat (length (Teacher.languages_with_code_in
                                   (Teacher.all_languages_codes self w) w))
       then "ов" else "а")
  +:+ (if t_native self then ", носитель" else "").
Proof. apply generate_position_form. Qed.

Lemma generate_position_shape_witness :
  Teacher.generate_position Examples.in_case Examples.anna_teacher MoreExamples.school
  = "Преподаватель английского, французского языков".
Proof.
  rewrite (generate_position_shape Examples.in_case Examples.anna_teacher
             MoreExamples.school).
  - by vm_compute.
  - intros l. unfold Examples.in_case. rewrite bool_decide_eq_true_2 by done.
    case_bool_decide; by vm_compute.
Defined.

(** ** The language for a student *)

(** X18: [language_for_student] never raises and never leaves the
    teacher's own languages: whatever the student's lessons, the machine
    name it returns is that of the primary language or of an attached
    language of the teacher. *)
Theorem language_for_student_is_a_teacher_language
    (set_order : gset string → list string) (self : teacher) (student : Z) (w : World) :
  lists_elements set_order →
  ∃ x, Teacher.language_for_student set_order self student w = Ok x
       ∧ x ∈ Teacher.teacher_languages self w.
Proof.
  intros Horder. unfold Teacher.language_for_student, Teacher.set_pop.
  destruct (set_order _) as [|x rest] eqn:Hso.
  - eexists. split; [done|]. apply teacher_languages_spec. by left.
  - exists x. split; [done|].
    assert (Hx : x ∈ Teacher.lesson_languages self student w
                     ∩ Teacher.teacher_languages self w).
    { apply Horder. rewrite Hso. by left. }
    by apply elem_of_intersection in Hx as [_ Hx].
Qed.

Lemma language_for_student_is_a_teacher_language_witness :
  ∃ x, Teacher.language_for_student Examples.set_order Examples.anna_teacher 7
         Examples.two_demos_one_student = Ok x
       ∧ x ∈ Teacher.teacher_languages Examples.anna_teacher
               Examples.two_demos_one_student.
Proof.
  apply language_for_student_is_a_teacher_language.
  exact set_order_lists_elements.
Defined.

(** ** The right form of a word *)

Lemma first_nomn_spec word :
  match Morph.first_nomn word with
  | Some p =>
      ∃ before after, word = before ++ p :: after
                      ∧ "nomn" ∈ parse_tag p
                      ∧ ∀ q, In q before → "nomn" ∉ parse_tag q
  | None => ∀ q, In q word → "nomn" ∉ parse_tag q
  end.
Proof.
  induction word as [|p word IH]; [by intros q []|].
  cbn [Morph.first_nomn]. case_bool_decide as Hp.
  - exists [], word. split; [done|]. split; [done|]. by intros q [].
  - destruct (Morph.first_nomn word) as [p'|].
    + destruct IH as (before & after & -> & Hp' & Hbefore).
      exists (p :: before), after. split; [done|]. split; [done|].
      intros q [<- | Hq]; [done | by apply Hbefore].
    + intros q [<- | Hq]; [done | by apply IH].
Qed.

(** X19: [_get_right_form] fails only on a word without readings.  On a
    word with readings it returns one of them: the first reading tagged
    nominative when there is one, and the first reading otherwise. *)
Theorem get_right_form_picks_the_first_nominative (word : list parse) :
  (Morph._get_right_form word = None ↔ word = [])
  ∧ ∀ p, Morph._get_right_form word = Some p →
         In p word
         ∧ ((∃ before after, word = before ++ p :: after
                             ∧ "nomn" ∈ parse_tag p
                             ∧ ∀ q, In q before → "nomn" ∉ parse_tag q)
            ∨ ((∀ q, In q word → "nomn" ∉ parse_tag q) ∧ head word = Some p)).
Proof.
  unfold Morph._get_right_form. pose proof (first_nomn_spec word) as Hspec.
  destruct (Morph.first_nomn word) as [p0|]; split.
  - split; [done|]. intros ->. by destruct Hspec as ([|??] & ? & ? & _).
  - intros p [= <-]. destruct Hspec as (before & after & -> & Hp & Hbefore).
    split; [apply List.in_app_iff; right; by left|].
    left. by exists before, after.
  - destruct word; [done|]. split; done.
  - intros p Hhead. split; [|by right].
    destruct word as [|q word]; [done|]. injection Hhead as ->. by left.
Qed.

(** ** The name of a stored material *)

Lemma contains_slash_cons c s :
  contains "/" (String c s) = bool_decide (c = "/"%char) || contains "/" s.
Proof.
  cbn [contains String.prefix]. destruct (ascii_dec "/" c) as [<- | Hne].
  - rewrite bool_decide_eq_true_2 by done. by destruct s.
  - rewrite bool_decide_eq_false_2 by congruence. done.
Qed.

Lemma contains_slash_snoc acc c :
  contains "/" acc = false → c ≠ "/"%char →
  contains "/" (acc +:+ String c EmptyString) = false.
Proof.
  intros Hacc Hc. induction acc as [|a acc IH].
  - change (contains "/" (String c EmptyString) = false).
    rewrite contains_slash_cons, bool_decide_eq_false_2 by done. done.
  - change (contains "/" (String a (acc +:+ String c EmptyString)) = false).
    rewrite contains_slash_cons in Hacc |- *.
    apply orb_false_iff in Hacc as [-> Hacc]. by rewrite IH.
Qed.

Lemma basename_from_no_slash acc p :
  contains "/" acc = false → contains "/" (basename_from acc p) = false.
Proof.
  revert acc. induction p as [|c p IH]; intros acc Hacc; [done|].
  cbn [basename_from]. case_bool_decide as Hc.
  - by apply IH.
  - apply IH. by apply contains_slash_snoc.
Qed.

(** Directories in front of a name do not change its base name. *)
Lemma basename_from_prefix acc dir name_ :
  basename_from acc (dir +:+ "/" +:+ name_) = basename_from "" name_.
Proof.
  revert acc. induction dir as [|c dir IH]; intros acc.
  - change (basename_from acc (String "/" name_) = basename_from "" name_).
    cbn [basename_from]. by rewrite bool_decide_eq_true_2.
  - change (basename_from acc (String c (dir +:+ "/" +:+ name_))
            = basename_from "" name_).
    cbn [basename_from]. case_bool_decide; apply IH.
Qed.

(** X20: [TeacherMaterial.name] never shows a directory: whatever the
    storage answers, a name it returns contains no slash. *)
Theorem material_name_has_no_directory
    (materials_fs_exists : string → bool) (materials_fs_path : string → string)
    (self : teacher_material) (shown : string) :
  TeacherMaterial.name materials_fs_exists materials_fs_path self = Ok shown →
  contains "/" shown = false.
Proof.
  unfold TeacherMaterial.name, TeacherMaterial.attachment_file_name,
    TeacherMaterial.materials_fs_open.
  case_bool_decide; [done|].
  destruct (materials_fs_exists (tm_attachment self)).
  - intros [= <-]. by apply basename_from_no_slash.
  - by intros [= <-].
Qed.

Lemma material_name_has_no_directory_witness :
  contains "/" "unit1.pdf" = false.
Proof.
  apply (material_name_has_no_directory Examples.stored Examples.stored_path
           Examples.unit1).
  reflexivity.
Defined.

(** X21: in a storage that keeps its files under a root directory, the name
    shown for a stored material is the base name of its attachment: the
    upload directory and the root are dropped, and the root does not
    matter. *)
Theorem material_name_is_the_base_name_of_the_attachment
    (materials_fs_exists : string → bool) (materials_fs_path : string → string)
    (root : string) (self : teacher_material) :
  rooted_storage materials_fs_path root →
  tm_attachment self ≠ "" →
  materials_fs_exists (tm_attachment self) = true →
  TeacherMaterial.name materials_fs_exists materials_fs_path self
  = Ok (os_path_basename (tm_attachment self)).
Proof.
  intros Hroot Hne Hex.
  unfold TeacherMaterial.name, TeacherMaterial.attachment_file_name,
    TeacherMaterial.materials_fs_open.
  rewrite bool_decide_eq_false_2 by done. rewrite Hex, Hroot.
  unfold os_path_basename. by rewrite basename_from_prefix.
Qed.

Lemma material_name_is_the_base_name_of_the_attachment_witness :
  TeacherMaterial.name Examples.stored (λ n, "/srv/materials" +:+ "/" +:+ n)
    Examples.unit1
  = Ok "unit1.pdf".
Proof.
  rewrite (material_name_is_the_base_name_of_the_attachment Examples.stored
             (λ n, "/srv/materials" +:+ "/" +:+ n) "/srv/materials" Examples.unit1).
  - reflexivity.
  - by intros n.
  - discriminate.
  - reflexivity.
Defined.

(** ** The due date of the onboarding tests *)

Lemma days_in_month_bounds y m : 28 <= days_in_month y m <= 31.
Proof.
  unfold days_in_month. destruct (m =? 2); [destruct (is_leap y); lia|].
  destruct (_ || _); lia.
Qed.

(** X22: [_assign_tests] gives both tests one and the same due date, one
    calendar month after today: for a valid date before December 9999 it is
    a valid date in the following month (January of the next year after
    December), on the same day of the month or on the last day of a shorter
    month; and nothing else is written. *)
Theorem assign_tests_due_next_month (self : teacher) (w : World) :
  valid_date (today w) →
  (year (today w) < 9999 ∨ month (today w) < 12) →
  ∃ due,
    Teacher._assign_tests self w
    = (Ok tt,
       set_user_tests
         (λ l, l ++ [mk_user_test (user_pk (t_user self)) "webinar1" due;
                     mk_user_test (user_pk (t_user self)) "webinar2" due]) w)
    ∧ valid_date due
    ∧ (month (today w) < 12 →
       year due = year (today w) ∧ month due = month (today w) + 1)
    ∧ (month (today w) = 12 → year due = year (today w) + 1 ∧ month due = 1)
    ∧ day due = Z.min (days_in_month (year due) (month due)) (day (today w)).
Proof.
  intros (Hyear & Hmonth & Hday) Hrange.
  pose (m := month (today w) + 1).
  pose (y' := if 12 <? m then year (today w) + 1 else year (today w)).
  pose (m' := if 12 <? m then m - 12 else m).
  pose (due := mk_date y' m' (Z.min (days_in_month y' m') (day (today w)))).
  assert (Hdue : add_one_month (today w) = Ok due).
  { unfold add_one_month. fold m. fold y'. fold m'.
    destruct (9999 <? y') eqn:Hy; [|done]. apply Z.ltb_lt in Hy.
    unfold y', m in Hy. destruct (12 <? month (today w) + 1) eqn:Hm.
    - apply Z.ltb_lt in Hm. lia.
    - lia. }
  exists due. split; [by apply assign_tests_run|].
  pose proof (days_in_month_bounds y' m') as Hdim.
  unfold due, y', m', m. cbn [year month day].
  unfold y', m', m in Hdim.
  destruct (12 <? month (today w) + 1) eqn:Hm;
    [apply Z.ltb_lt in Hm | apply Z.ltb_ge in Hm].
  - split_and!; try lia. unfold valid_date. cbn [year month day]. lia.
  - split_and!; try lia. unfold valid_date. cbn [year month day]. lia.
Qed.

Lemma assign_tests_due_next_month_witness :
  ∃ due,
    Teacher._assign_tests Examples.anna_teacher Examples.empty_world
    = (Ok tt,
       set_user_tests
         (λ l, l ++ [mk_user_test 5 "webinar1" due; mk_user_test 5 "webinar2" due])
         Examples.empty_world)
    ∧ valid_date due.
Proof.
  destruct (assign_tests_due_next_month Examples.anna_teacher Examples.empty_world)
    as (due & Hrun & Hvalid & _).
  - split_and!; cbn; lia.
  - left. cbn. lia.
  - by exists due.
Defined.

(** ** Purchases and the paid-after-demo count *)

Lemma filter_length_mono {A} (f g : A → bool) (l : list A) :
  (∀ x, In x l → f x = true → g x = true) →
  (length (List.filter f l) <= length (List.filter g l))%nat.
Proof.
  induction l as [|a l IH]; intros H; [done|].
  cbn [List.filter].
  assert (IH' : (length (List.filter f l) <= length (List.filter g l))%nat).
  { apply IH. intros x Hx. apply H. by right. }
  destruct (f a) eqn:Hf.
  - rewrite (H a (or_introl eq_refl) Hf). cbn [length]. lia.
  - destruct (g a); cbn [length]; lia.
Qed.

Lemma paid_course_exists_add c w l :
  Teacher.paid_course_exists (add_course c w) l
  = Teacher.paid_course_exists w l
    || ((sc_student c =? sc_student (stl_course l))
        && negb (sc_created c <? stl_start l)
        && negb (bool_decide (bc_code (sc_base_course c) = "DEMO"))
        && negb (bool_decide (bc_code (sc_base_course c) = "NATIVE-DEMO"))).
Proof.
  unfold Teacher.paid_course_exists, add_course. cbn [courses].
  rewrite List.existsb_app. cbn [existsb]. by rewrite orb_false_r.
Qed.

(** X23: a new course never lowers the fresh paid-after-demo count of a
    teacher, and a new DEMO or NATIVE-DEMO course leaves it as it is;
    neither changes the finished demo lessons. *)
Theorem purchases_and_paid_after_demo (self : teacher) (c : student_course) (w : World) :
  Teacher.paid_after_demo_body self w
    <= Teacher.paid_after_demo_body self (add_course c w)
  ∧ (Teacher.is_demo (sc_base_course c) = true →
     Teacher.paid_after_demo_body self (add_course c w)
     = Teacher.paid_after_demo_body self w)
  ∧ Teacher._finished_demo_lessons self (add_course c w)
    = Teacher._finished_demo_lessons self w.
Proof.
  rewrite !paid_after_demo_body_count.
  change (Teacher._finished_demo_lessons self (add_course c w))
    with (Teacher._finished_demo_lessons self w).
  split_and!; [| |done].
  - apply inj_le. apply filter_length_mono. intros l _ Hl.
    rewrite paid_course_exists_add, Hl. done.
  - intros Hdemo. f_equal. f_equal. apply List.filter_ext. intros l.
    rewrite paid_course_exists_add. unfold Teacher.is_demo in Hdemo.
    apply orb_true_iff in Hdemo as [Hd | Hd]; rewrite Hd; cbn [negb];
      by rewrite ?andb_false_r, orb_false_r.
Qed.

Lemma purchases_and_paid_after_demo_witness :
  Teacher.paid_after_demo_body Examples.anna_teacher
    (add_course (Examples.demo_course 104) Examples.ten_demos)
  = Teacher.paid_after_demo_body Examples.anna_teacher Examples.ten_demos.
Proof.
  apply (purchases_and_paid_after_demo Examples.anna_teacher (Examples.demo_course 104)
           Examples.ten_demos).
  reflexivity.
Defined.
